(** * Sudoku UDP-over-TCP framing ([transport/sudoku/uot.go])

    A shallow embedding of the datagram framer and of the packet adapter of
    [uot.go], together with executable models of the Go standard-library
    routines the file calls ([encoding/binary], [io], [net], [net/netip],
    [fmt]), written after their Go sources.

    Conventions.
    - A Go [byte] is a [Byte.byte]; a Go [string] is an immutable byte
      sequence and is modelled as [list byte], so that [[]byte(s)] and
      [string(b)] are the identity.
    - A Go [int] holding a length is a [Z]; conversions to [uint16] and
      [byte] are written out as reductions modulo 2^16 and 2^8.
    - A Go [error] result is an [option error] ([None] is [nil]); a pair
      [(T, error)] is a [result T].
    - The system's service database and resolver, which Go reaches through
      [net.LookupPort] and [net.ResolveUDPAddr], are parameters of the
      development.
    - [sync.Mutex] only orders concurrent writers; the embedding is
      sequential and leaves it out. *)

From Stdlib Require Import Strings.String Strings.Ascii Strings.Byte.
From Stdlib Require Import ZArith List Lia Bool.
Import ListNotations.
Open Scope Z_scope.

(** ** Bytes, strings, errors *)

Definition gostring := list byte.

(** A Go string literal. *)
Definition str (s : string) : gostring := list_byte_of_string s.

Definition byte_val (b : byte) : Z := Z.of_N (Byte.to_N b).

(** The conversion [byte(x)] of an integer: the low eight bits. *)
Definition to_byte (z : Z) : byte :=
  match Byte.of_N (Z.to_N (z mod 256)) with
  | Some b => b
  | None => x00
  end.

(** The conversion [uint16(x)] of an integer: the low sixteen bits. *)
Definition uint16 (z : Z) : Z := z mod 65536.

(** The conversion [uint32(x)]. *)
Definition uint32 (z : Z) : Z := z mod 4294967296.

Definition len {A} (l : list A) : Z := Z.of_nat (length l).

(** [s[lo:hi]] *)
Definition slice {A} (s : list A) (lo hi : nat) : list A :=
  firstn (hi - lo) (skipn lo s).

Inductive error : Type :=
| EOF                                   (* io.EOF *)
| ErrUnexpectedEOF                      (* io.ErrUnexpectedEOF *)
| ErrShortBuffer                        (* io.ErrShortBuffer *)
| AddrError (why addr : gostring)       (* *net.AddrError *)
| ErrUnknownPort (service : gostring)   (* the service database has no entry *)
| ErrResolve (addr : gostring)          (* the resolver found no address *)
| ErrTransport (msg : gostring)         (* a failure of the underlying stream *)
| ErrDomainTooLong                      (* "domain too long" *)
| ErrUnknownAddrType (atyp : byte)      (* "unknown address type: %d" *)
| ErrEncodeAddress (e : error)          (* "encode address: %w" *)
| ErrDecodeAddress (e : error)          (* "decode address: %w" *)
| ErrAddressTooLong (n : Z)             (* "address too long: %d" *)
| ErrPayloadTooLarge (n : Z)            (* "payload too large: %d" *)
| ErrInvalidAddrLen (n : Z)             (* "invalid address length: %d" *)
| ErrInvalidPayloadLen (n : Z)          (* "invalid payload length: %d" *)
| ErrNilAddress.                        (* "address is nil" *)

Inductive result (A : Type) : Type :=
| Ok (a : A)
| Err (e : error).
Arguments Ok {A} a.
Arguments Err {A} e.

(** ** [encoding/binary]: big-endian 16-bit fields *)

Module binary.

(** [binary.BigEndian.PutUint16(b, v)]: the two bytes stored in [b]. *)
Definition PutUint16 (v : Z) : list byte :=
  [to_byte (Z.shiftr v 8); to_byte v].

(** [binary.BigEndian.Uint16(b)] for a two-byte [b]. *)
Definition Uint16 (b : list byte) : Z :=
  Z.lor (byte_val (nth 1 b x00)) (Z.shiftl (byte_val (nth 0 b x00)) 8).

End binary.

(** ** [io]: writers, and [io.ReadFull] on a byte stream *)

(** [io.Writer]: [Write] returns the writer after the call and the error;
    the byte count is not used by [uot.go]. *)
Class Writer (W : Type) := Write : W -> list byte -> W * option error.

(** A [bytes.Buffer], or the sending half of a healthy stream: every write
    appends and succeeds. *)
Definition Buffer := list byte.
#[export] Instance Buffer_Writer : Writer Buffer :=
  fun w b => (w ++ b, None).

(** A stream that accepts [room] more bytes and then fails: a write that
    does not fit stores what fits and reports the failure. *)
Record Pipe := { written : list byte; room : nat }.
#[export] Instance Pipe_Writer : Writer Pipe :=
  fun w b =>
    if (length b <=? room w)%nat
    then ({| written := written w ++ b; room := room w - length b |}, None)
    else ({| written := written w ++ firstn (room w) b; room := 0 |},
          Some (ErrTransport (str "write: broken pipe"))).

(** The receiving side: the bytes the stream still holds, in order; when
    they are exhausted a read reports end of stream. *)
Definition Reader := list byte.

(** Computations that read from a stream and may fail. *)
Definition Rd (A : Type) : Type := Reader -> result A * Reader.

Definition ret {A} (a : A) : Rd A := fun r => (Ok a, r).
Definition fail {A} (e : error) : Rd A := fun r => (Err e, r).
Definition bind {A B} (m : Rd A) (k : A -> Rd B) : Rd B :=
  fun r =>
    match m r with
    | (Ok a, r') => k a r'
    | (Err e, r') => (Err e, r')
    end.

Declare Scope rd_scope.
Delimit Scope rd_scope with rd.
Notation "x <- m ;; k" := (bind m (fun x => k))
  (at level 61, m at next level, right associativity) : rd_scope.

Module io.

(** [io.ReadFull(r, buf)] with [len(buf) = n]: exactly [n] bytes, or
    [EOF] when none could be read, or [ErrUnexpectedEOF] when the stream
    ended after some but not all of them.  With [n = 0] nothing is read. *)
Definition ReadFull (n : nat) : Rd (list byte) :=
  fun r =>
    if (n =? 0)%nat then (Ok [], r)
    else if (n <=? length r)%nat then (Ok (firstn n r), skipn n r)
    else match r with
         | [] => (Err EOF, [])
         | _ => (Err ErrUnexpectedEOF, [])
         end.

End io.

(** ** [strconv] / [fmt]: decimal text of an unsigned integer *)

Module strconv.

(** The ASCII digit of [d] in base 16 (["0123456789abcdef"[d]]). *)
Definition digit (d : Z) : byte :=
  nth (Z.to_nat d) (str "0123456789abcdef") x00.

(** [strconv.formatBits] in base 10: digits are produced from the least
    significant one while [u >= 10]. *)
Fixpoint formatBits (fuel : nat) (u : Z) (acc : gostring) : gostring :=
  match fuel with
  | O => digit u :: acc
  | S f =>
      if u <? 10 then digit u :: acc
      else formatBits f (u / 10) (digit (u mod 10) :: acc)
  end.

(** [fmt.Sprint(v)] for a [uint16] (at most five digits). *)
Definition Sprint (v : Z) : gostring := formatBits 4 v [].

End strconv.

(** ** [net] and [net/netip]: host:port text, IP literals, ports *)

Module net.

Definition IPv4len : nat := 4.
Definition IPv6len : nat := 16.

(** [bytealg.IndexByteString]: [None] stands for -1. *)
Fixpoint IndexByte (s : gostring) (c : byte) : option nat :=
  match s with
  | [] => None
  | b :: s' =>
      if Byte.eqb b c then Some 0%nat else option_map S (IndexByte s' c)
  end.

(** [bytealg.LastIndexByteString]. *)
Fixpoint LastIndexByte (s : gostring) (c : byte) : option nat :=
  match s with
  | [] => None
  | b :: s' =>
      match LastIndexByte s' c with
      | Some i => Some (S i)
      | None => if Byte.eqb b c then Some 0%nat else None
      end
  end.

Definition contains (s : gostring) (c : byte) : bool :=
  match IndexByte s c with Some _ => true | None => false end.

Definition missingPort := str "missing port in address".
Definition tooManyColons := str "too many colons in address".

(** [net.SplitHostPort]. *)
Definition SplitHostPort (hostport : gostring) : result (gostring * gostring) :=
  match LastIndexByte hostport ":" with
  | None => Err (AddrError missingPort hostport)
  | Some i =>
      let finish (host : gostring) (j k : nat) :=
        if contains (skipn j hostport) "[" then
          Err (AddrError (str "unexpected '[' in address") hostport)
        else if contains (skipn k hostport) "]" then
          Err (AddrError (str "unexpected ']' in address") hostport)
        else Ok (host, skipn (S i) hostport) in
      if Byte.eqb (nth 0 hostport x00) "[" then
        match IndexByte hostport "]" with
        | None => Err (AddrError (str "missing ']' in address") hostport)
        | Some end_ =>
            if (S end_ =? length hostport)%nat then
              Err (AddrError missingPort hostport)
            else if (S end_ =? i)%nat then
              finish (slice hostport 1 end_) 1%nat (S end_)
            else if Byte.eqb (nth (S end_) hostport x00) ":" then
              Err (AddrError tooManyColons hostport)
            else Err (AddrError missingPort hostport)
        end
      else
        let host := firstn i hostport in
        if contains host ":" then Err (AddrError tooManyColons hostport)
        else finish host 0%nat 0%nat
  end.

(** [net.JoinHostPort]. *)
Definition JoinHostPort (host port : gostring) : gostring :=
  if contains host ":" then str "[" ++ host ++ str "]:" ++ port
  else host ++ str ":" ++ port.

Definition isDigit (c : byte) : bool :=
  (48 <=? byte_val c) && (byte_val c <=? 57).

(** The digit loop of [net.parsePort] over a [uint32] accumulator:
    [inr true] is "needs lookup", [inl n] the accumulated value. *)
Fixpoint parsePort_loop (service : gostring) (n : Z) : Z + bool :=
  match service with
  | [] => inl n
  | d :: rest =>
      if isDigit d then
        let d := byte_val d - 48 in
        if n >=? 1073741824 then inl 4294967295
        else
          let n := uint32 (n * 10) in
          let nn := uint32 (n + d) in
          if (nn <? n) || (nn >? 4294967295) then inl 4294967295
          else parsePort_loop rest nn
      else inr true
  end.

(** [net.parsePort]: the port and whether the service needs a lookup. *)
Definition parsePort (service : gostring) : Z * bool :=
  match service with
  | [] => (0, false)
  | c :: rest =>
      let neg := Byte.eqb c "-" in
      let service := if Byte.eqb c "+" || neg then rest else service in
      match parsePort_loop service 0 with
      | inr _ => (0, true)
      | inl n =>
          let port :=
            if negb neg && (n >=? 1073741824) then 1073741824 - 1
            else if neg && (n >? 1073741824) then 1073741824
            else n in
          (if neg then - port else port, false)
      end
  end.

(** [net.LookupPort(network, service)]; [lookupPort] is the resolver's
    service database for [network]. *)
Definition LookupPort (lookupPort : gostring -> result Z)
    (service : gostring) : result Z :=
  let '(port, needsLookup) := parsePort service in
  match (if needsLookup then lookupPort service else Ok port) with
  | Err e => Err e
  | Ok port =>
      if (0 >? port) || (port >? 65535)
      then Err (AddrError (str "invalid port") service)
      else Ok port
  end.

(** [netip.parseIPv4Fields] on [s]: [prev] is the byte before the
    current one ([None] at index 0), [fields] the octets stored so far
    ([pos] is their number). *)
Fixpoint parseIPv4Fields (s : gostring) (prev : option byte)
    (val digLen : Z) (fields : list byte) : option (list byte) :=
  match s with
  | [] =>
      if (length fields <? 3)%nat then None
      else Some (fields ++ [to_byte val])
  | c :: rest =>
      if isDigit c then
        if (digLen =? 1) && (val =? 0) then None
        else
          let val := val * 10 + byte_val c - 48 in
          if val >? 255 then None
          else parseIPv4Fields rest (Some c) val (digLen + 1) fields
      else if Byte.eqb c "." then
        let bad :=
          match prev, rest with
          | None, _ => true
          | _, [] => true
          | Some p, _ => Byte.eqb p "."
          end in
        if bad then None
        else if (length fields =? 3)%nat then None
        else parseIPv4Fields rest (Some c) 0 0 (fields ++ [to_byte val])
      else None
  end.

Definition parseIPv4 (s : gostring) : option (list byte) :=
  parseIPv4Fields s None 0 0 [].

Definition hexVal (c : byte) : option Z :=
  let v := byte_val c in
  if (48 <=? v) && (v <=? 57) then Some (v - 48)
  else if (97 <=? v) && (v <=? 102) then Some (v - 97 + 10)
  else if (65 <=? v) && (v <=? 70) then Some (v - 65 + 10)
  else None.

(** The hex-number loop of [netip.parseIPv6]: the number of digits read,
    their value and the text from the first byte that is not a digit. *)
Fixpoint parseHex (s : gostring) (off : nat) (acc : Z)
    : option (nat * Z * gostring) :=
  match s with
  | [] => Some (off, acc, s)
  | c :: rest =>
      match hexVal c with
      | None => Some (off, acc, s)
      | Some v =>
          let acc := Z.shiftl acc 4 + v in
          if (3 <? off)%nat then None
          else if acc >? 65535 then None
          else parseHex rest (S off) acc
      end
  end.

(** The group loop of [netip.parseIPv6]: [ip] holds the bytes stored so
    far ([i] is their number), [ellipsis] the position of "::". *)
Fixpoint parseIPv6_loop (fuel : nat) (ip : list byte)
    (ellipsis : option nat) (s : gostring)
    : option (list byte * option nat * gostring) :=
  if (16 <=? length ip)%nat then Some (ip, ellipsis, s)
  else
    match fuel with
    | O => None
    | S fuel =>
        match parseHex s 0 0 with
        | None => None
        | Some (O, _, _) => None
        | Some (_, acc, s') =>
            if Byte.eqb (nth 0 s' x00) "." && negb (length s' =? 0)%nat then
              if (match ellipsis with None => true | _ => false end)
                 && negb (length ip =? 12)%nat then None
              else if (16 <? length ip + 4)%nat then None
              else
                match parseIPv4 s with
                | None => None
                | Some v4 => Some (ip ++ v4, ellipsis, [])
                end
            else
              let ip := ip ++ [to_byte (Z.shiftr acc 8); to_byte acc] in
              match s' with
              | [] => Some (ip, ellipsis, [])
              | c :: s1 =>
                  if negb (Byte.eqb c ":") then None
                  else
                    match s1 with
                    | [] => None
                    | c1 :: s2 =>
                        if Byte.eqb c1 ":" then
                          match ellipsis with
                          | Some _ => None
                          | None =>
                              match s2 with
                              | [] => Some (ip, Some (length ip), [])
                              | _ => parseIPv6_loop fuel ip (Some (length ip)) s2
                              end
                          end
                        else parseIPv6_loop fuel ip ellipsis s1
                    end
              end
        end
    end.

(** The end of [netip.parseIPv6]: the whole text must have been used, and
    an address that is too short is completed at the ellipsis. *)
Definition expandEllipsis (r : list byte * option nat * gostring)
    : option (list byte) :=
  let '(ip, ellipsis, s) := r in
  if negb (length s =? 0)%nat then None
  else if (length ip <? 16)%nat then
    match ellipsis with
    | None => None
    | Some e => Some (firstn e ip ++ repeat x00 (16 - length ip) ++ skipn e ip)
    end
  else
    match ellipsis with
    | Some _ => None
    | None => Some ip
    end.

(** [netip.parseIPv6] followed by the test of [net.parseIP] that the
    address carries no zone: the sixteen bytes of the address. *)
Definition parseIPv6 (s : gostring) : option (list byte) :=
  match IndexByte s "%" with
  | Some _ => None
  | None =>
      let '(ellipsis, s) :=
        match s with
        | c0 :: c1 :: s' =>
            if Byte.eqb c0 ":" && Byte.eqb c1 ":" then (Some 0%nat, s')
            else (None, s)
        | _ => (None, s)
        end in
      match ellipsis, s with
      | Some _, [] => Some (repeat x00 16)
      | _, _ =>
          match parseIPv6_loop 8 [] ellipsis s with
          | None => None
          | Some r => expandEllipsis r
          end
      end
  end.

(** [netip.ParseAddr]: the first of '.', ':' and '%' decides the form. *)
Fixpoint ParseAddr_dispatch (s rest : gostring) : option (list byte) :=
  match rest with
  | [] => None
  | c :: rest' =>
      if Byte.eqb c "." then
        option_map
          (fun v4 => repeat x00 10 ++ [xff; xff] ++ v4) (parseIPv4 s)
      else if Byte.eqb c ":" then parseIPv6 s
      else if Byte.eqb c "%" then None
      else ParseAddr_dispatch s rest'
  end.

(** [net.ParseIP]: the sixteen-byte form of the literal, [None] for
    [nil]. *)
Definition ParseIP (s : gostring) : option (list byte) :=
  ParseAddr_dispatch s s.

Definition isZeros (p : list byte) : bool :=
  forallb (fun b => Byte.eqb b x00) p.

(** [IP.To4]. *)
Definition To4 (ip : list byte) : option (list byte) :=
  if (length ip =? IPv4len)%nat then Some ip
  else if (length ip =? IPv6len)%nat && isZeros (slice ip 0 10)
          && Byte.eqb (nth 10 ip x00) xff && Byte.eqb (nth 11 ip x00) xff
  then Some (slice ip 12 16)
  else None.

(** [netip.appendDecimal] of a [uint8]. *)
Definition appendDecimal (b : gostring) (x : Z) : gostring :=
  let b := if x >=? 100 then b ++ [strconv.digit (x / 100)] else b in
  let b := if x >=? 10 then b ++ [strconv.digit (x / 10 mod 10)] else b in
  b ++ [strconv.digit (x mod 10)].

(** [netip.appendHex] of a [uint16]. *)
Definition appendHex (b : gostring) (x : Z) : gostring :=
  let b := if x >=? 4096 then b ++ [strconv.digit (Z.shiftr x 12)] else b in
  let b := if x >=? 256
           then b ++ [strconv.digit (Z.land (Z.shiftr x 8) 15)] else b in
  let b := if x >=? 16
           then b ++ [strconv.digit (Z.land (Z.shiftr x 4) 15)] else b in
  b ++ [strconv.digit (Z.land x 15)].

(** [Addr.string4]. *)
Definition string4 (ip : list byte) : gostring :=
  let f i := byte_val (nth i ip x00) in
  appendDecimal
    (appendDecimal
       (appendDecimal (appendDecimal [] (f 0%nat) ++ str ".") (f 1%nat)
          ++ str ".") (f 2%nat) ++ str ".") (f 3%nat).

(** [Addr.v6u16(i)]. *)
Definition v6u16 (ip : list byte) (i : nat) : Z :=
  Z.lor (Z.shiftl (byte_val (nth (2 * i) ip x00)) 8)
        (byte_val (nth (2 * i + 1) ip x00)).

(** The inner loop of [appendTo6]: the end of the run of zero groups
    that starts at [j]. *)
Fixpoint zeroRun (fuel : nat) (ip : list byte) (j : nat) : nat :=
  match fuel with
  | O => j
  | S fuel =>
      if (j <? 8)%nat && (v6u16 ip j =? 0) then zeroRun fuel ip (S j) else j
  end.

(** The first loop of [appendTo6]: the longest run of at least two zero
    groups, the earliest one on a tie; (255, 255) when there is none. *)
Fixpoint longestZeroRun (fuel : nat) (ip : list byte) (i : nat)
    (zeroStart zeroEnd : nat) : nat * nat :=
  match fuel with
  | O => (zeroStart, zeroEnd)
  | S fuel =>
      let j := zeroRun 8 ip i in
      let l := (j - i)%nat in
      if (2 <=? l)%nat && (zeroEnd - zeroStart <? l)%nat
      then longestZeroRun fuel ip (S i) i j
      else longestZeroRun fuel ip (S i) zeroStart zeroEnd
  end.

(** The second loop of [appendTo6]. *)
Fixpoint appendTo6_loop (fuel : nat) (ip : list byte) (i : nat)
    (zeroStart zeroEnd : nat) (b : gostring) : gostring :=
  match fuel with
  | O => b
  | S fuel =>
      if (8 <=? i)%nat then b
      else if (i =? zeroStart)%nat then
        let b := b ++ str "::" in
        let i := zeroEnd in
        if (8 <=? i)%nat then b
        else appendTo6_loop fuel ip (S i) zeroStart zeroEnd
               (appendHex b (v6u16 ip i))
      else
        let b := if (0 <? i)%nat then b ++ str ":" else b in
        appendTo6_loop fuel ip (S i) zeroStart zeroEnd
          (appendHex b (v6u16 ip i))
  end.

(** [Addr.string6] of an address without zone. *)
Definition string6 (ip : list byte) : gostring :=
  let '(zeroStart, zeroEnd) := longestZeroRun 8 ip 0 255 255 in
  appendTo6_loop 8 ip 0 zeroStart zeroEnd [].

(** [hexString]: two lower-case hex digits per byte. *)
Definition hexString (b : list byte) : gostring :=
  flat_map
    (fun c => [strconv.digit (Z.shiftr (byte_val c) 4);
               strconv.digit (Z.land (byte_val c) 15)]) b.

(** [IP.String]. *)
Definition IP_String (ip : list byte) : gostring :=
  if (length ip =? 0)%nat then str "<nil>"
  else if negb (length ip =? IPv4len)%nat && negb (length ip =? IPv6len)%nat
  then str "?" ++ hexString ip
  else
    match To4 ip with
    | Some p4 => string4 p4
    | None => string6 ip
    end.

(** A [net.UDPAddr]. *)
Record UDPAddr := { IP : list byte; Port : Z; Zone : gostring }.

(** A [net.Addr] value: what its two methods return. *)
Record Addr := { Network : gostring; String : gostring }.

End net.

(** ** [uot.go] *)

(** [copy(dst, src)]: the contents of [dst] after the call. *)
Definition copy (dst src : list byte) : list byte :=
  firstn (length dst) src ++ skipn (length src) dst.

(** A [net.Conn]: the bytes still to be received, and the sending side. *)
Record Conn (W : Type) := { incoming : Reader; outgoing : W }.
Arguments incoming {W} c.
Arguments outgoing {W} c.

(** [UoTPacketConn] adapts a [net.Conn] with the UoT framing to
    [net.PacketConn]. *)
Record UoTPacketConn (W : Type) := { conn : Conn W }.
Arguments conn {W} u.

(** What [log.Debugln] recorded: the discarded address and the resolver's
    error. *)
Definition Log := list (gostring * error).

(** What a call of [ReadFrom] returns, [(int, net.Addr, error)], and what
    it leaves behind: the stream, the caller's buffer and the log. *)
Record ReadFromResult := {
  rf_n : Z;
  rf_addr : option net.UDPAddr;
  rf_err : option error;
  rf_stream : Reader;
  rf_buf : list byte;
  rf_log : Log
}.

Section UoT.

(** The service database behind [net.LookupPort("udp", _)]. *)
Variable lookupPort : gostring -> result Z.

(** [net.ResolveUDPAddr("udp", _)]. *)
Variable ResolveUDPAddr : gostring -> result net.UDPAddr.

Definition maxUoTPayload : Z := 64 * 1024.


Definition encodeAddress (rawAddr : gostring) : result (list byte) :=
  match net.SplitHostPort rawAddr with
  | Err e => Err e
  | Ok (host, portStr) =>
      match net.LookupPort lookupPort portStr with
      | Err e => Err e
      | Ok portInt =>
          let buf :=
            match net.ParseIP host with
            | Some ip =>
                match net.To4 ip with
                | Some ip4 => Ok ([x01] ++ ip4)          (* IPv4 *)
                | None => Ok ([x04] ++ ip)               (* IPv6 *)
                end
            | None =>
                if len host >? 255 then Err ErrDomainTooLong
                else Ok ([x03] ++ [to_byte (len host)] ++ host) (* domain *)
            end in
          match buf with
          | Err e => Err e
          | Ok buf => Ok (buf ++ binary.PutUint16 (uint16 portInt))
          end
      end
  end.

Definition decodeAddress : Rd gostring :=
  (atyp <- io.ReadFull 1 ;;
   match nth 0 atyp x00 with
   | x01 => (* IPv4 *)
       ipBuf <- io.ReadFull net.IPv4len ;;
       portBuf <- io.ReadFull 2 ;;
       ret (net.JoinHostPort (net.IP_String ipBuf)
              (strconv.Sprint (binary.Uint16 portBuf)))
   | x04 => (* IPv6 *)
       ipBuf <- io.ReadFull net.IPv6len ;;
       portBuf <- io.ReadFull 2 ;;
       ret (net.JoinHostPort (net.IP_String ipBuf)
              (strconv.Sprint (binary.Uint16 portBuf)))
   | x03 => (* domain *)
       lengthBuf <- io.ReadFull 1 ;;
       let l := byte_val (nth 0 lengthBuf x00) in
       hostBuf <- io.ReadFull (Z.to_nat l) ;;
       portBuf <- io.ReadFull 2 ;;
       ret (net.JoinHostPort hostBuf
              (strconv.Sprint (binary.Uint16 portBuf)))
   | b => fail (ErrUnknownAddrType b)
   end)%rd.

(** [WriteDatagram] sends a single UDP datagram frame over a reliable
    stream. *)
Definition WriteDatagram {W} `{Writer W} (w : W) (addr : gostring)
    (payload : list byte) : W * option error :=
  match encodeAddress addr with
  | Err e => (w, Some (ErrEncodeAddress e))
  | Ok addrBuf =>
      let addrLen := len addrBuf in
      if (addrLen =? 0) || (addrLen >? maxUoTPayload)
      then (w, Some (ErrAddressTooLong (len addrBuf)))
      else
        let payloadLen := len payload in
        if payloadLen >? maxUoTPayload
        then (w, Some (ErrPayloadTooLarge payloadLen))
        else
          let header :=
            binary.PutUint16 (uint16 (len addrBuf))
              ++ binary.PutUint16 (uint16 (len payload)) in
          match Write w header with
          | (w, Some err) => (w, Some err)
          | (w, None) =>
              match Write w addrBuf with
              | (w, Some err) => (w, Some err)
              | (w, None) => Write w payload
              end
          end
  end.

(** [ReadDatagram] parses a single UDP datagram frame from the reliable
    stream. *)
Definition ReadDatagram : Rd (gostring * list byte) :=
  (header <- io.ReadFull 4 ;;
   let addrLen := binary.Uint16 (slice header 0 2) in
   let payloadLen := binary.Uint16 (slice header 2 4) in
   if (addrLen <=? 0) || (addrLen >? maxUoTPayload)
   then fail (ErrInvalidAddrLen addrLen)
   else if (payloadLen <? 0) || (payloadLen >? maxUoTPayload)
   then fail (ErrInvalidPayloadLen payloadLen)
   else
     addrBuf <- io.ReadFull (Z.to_nat addrLen) ;;
     match decodeAddress addrBuf with     (* bytes.NewReader(addrBuf) *)
     | (Err err, _) => fail (ErrDecodeAddress err)
     | (Ok addr, _) =>
         payload <- io.ReadFull (Z.to_nat payloadLen) ;;
         ret (addr, payload)
     end)%rd.

Definition NewUoTPacketConn {W} (c : Conn W) : UoTPacketConn W :=
  {| conn := c |}.

(** The receive loop of [ReadFrom]; one unit of [fuel] is one iteration,
    [None] is a loop cut short by the fuel. *)
Fixpoint ReadFrom_loop (fuel : nat) (r : Reader) (p : list byte)
    (lg : Log) : option ReadFromResult :=
  match fuel with
  | O => None
  | S fuel =>
      match ReadDatagram r with
      | (Err err, r) =>
          Some {| rf_n := 0; rf_addr := None; rf_err := Some err;
                  rf_stream := r; rf_buf := p; rf_log := lg |}
      | (Ok (addrStr, payload), r) =>
          if len payload >? len p then
            Some {| rf_n := 0; rf_addr := None;
                    rf_err := Some ErrShortBuffer;
                    rf_stream := r; rf_buf := p; rf_log := lg |}
          else
            match ResolveUDPAddr addrStr with
            | Err err =>
                ReadFrom_loop fuel r p (lg ++ [(addrStr, err)])
            | Ok udpAddr =>
                Some {| rf_n := len payload; rf_addr := Some udpAddr;
                        rf_err := None; rf_stream := r;
                        rf_buf := copy p payload; rf_log := lg |}
            end
      end
  end.

(** [ReadFrom]: every iteration that continues has consumed a frame, so
    the length of the stream bounds the number of iterations. *)
Definition ReadFrom {W} (c : UoTPacketConn W) (p : list byte) (lg : Log)
    : option ReadFromResult :=
  ReadFrom_loop (S (length (incoming (conn c)))) (incoming (conn c)) p lg.

(** [WriteTo]: the returned [(int, error)] and the adapter afterwards. *)
Definition WriteTo {W} `{Writer W} (c : UoTPacketConn W) (p : list byte)
    (addr : option net.Addr) : (Z * option error) * UoTPacketConn W :=
  match addr with
  | None => ((0, Some ErrNilAddress), c)
  | Some addr =>
      let '(w, err) := WriteDatagram (outgoing (conn c)) (net.String addr) p in
      let c := {| conn := {| incoming := incoming (conn c); outgoing := w |} |} in
      match err with
      | Some err => ((0, Some err), c)
      | None => ((len p, None), c)
      end
  end.

End UoT.

(** ** Two environments *)

(** Go's built-in service table for "udp" (used when the system has no
    service database). *)
Definition builtinServices (service : gostring) : result Z :=
  if list_eq_dec Byte.byte_eq_dec service (str "domain") then Ok 53
  else Err (ErrUnknownPort service).

(** A resolver without name service: IP literals resolve, names do not. *)
Definition literalResolver (addr : gostring) : result net.UDPAddr :=
  match net.SplitHostPort addr with
  | Err e => Err e
  | Ok (host, portStr) =>
      match net.LookupPort builtinServices portStr with
      | Err e => Err e
      | Ok port =>
          match net.ParseIP host with
          | Some ip => Ok {| net.IP := ip; net.Port := port; net.Zone := [] |}
          | None => Err (ErrResolve host)
          end
      end
  end.

(** ** Example data

    Two frames used in the examples: a datagram for the name
    [example.com], which [literalResolver] cannot resolve, and one for the
    literal [1.2.3.4]. *)
Definition frame_example_com : list byte :=
  [x00; x0f; x00; x02] ++ [x03; x0b] ++ str "example.com" ++ [x00; x35]
    ++ [xaa; xbb].
Definition frame_1_2_3_4 : list byte :=
  [x00; x07; x00; x01] ++ [x01; x01; x02; x03; x04; x00; x35] ++ [xcc].
Definition stream_conn (r : Reader) : UoTPacketConn Buffer :=
  NewUoTPacketConn {| incoming := r; outgoing := [] |}.

(** ** Notions used in the statements *)

(** Two endpoint texts are equivalent when [encodeAddress] resolves them
    to the same wire form, that is, to the same kind of host, the same
    host bytes and the same port. *)
Definition equivalentEndpoint (lookupPort : gostring -> result Z)
    (a b : gostring) : Prop :=
  exists buf, encodeAddress lookupPort a = Ok buf
              /\ encodeAddress lookupPort b = Ok buf.

(** The value of a list of hex digits read from the left. *)
Definition hexValue (ds : list Z) (acc : Z) : Z :=
  fold_left (fun a d => a * 16 + d) ds acc.

(** A text that starts with a hex digit. *)
Definition startsHex (t : gostring) : Prop :=
  exists d tl, 0 <= d <= 15 /\ t = strconv.digit d :: tl.

(** A byte of an IPv6 text. *)
Definition hexOrColon (c : byte) : Prop :=
  (exists d, 0 <= d <= 15 /\ c = strconv.digit d) \/ c = ":"%byte.

(** Where [parseHex] stops: at the end, or at a byte that is no hex digit. *)
Definition stopsHex (t : gostring) : Prop :=
  match t with [] => True | c :: _ => net.hexVal c = None end.

(** What the first loop of [appendTo6] maintains: no run yet, or a run of
    at least two zero groups. *)
Definition zeroRunInv (ip : list byte) (zeroStart zeroEnd : nat) : Prop :=
  (zeroStart = 255%nat /\ zeroEnd = 255%nat)
  \/ ((zeroStart + 2 <= zeroEnd <= 8)%nat
      /\ forall k, (zeroStart <= k < zeroEnd)%nat -> net.v6u16 ip k = 0).

(** The frames [ReadFrom] discards: [Discards resolve p r lg r' lg'] when,
    reading from [r] with log [lg], the receive loop reads and drops zero
    or more frames whose payload fits the buffer [p] and whose address
    does not resolve, and stands at [r'] with log [lg']. *)
Inductive Discards (ResolveUDPAddr : gostring -> result net.UDPAddr)
    (p : list byte) : Reader -> Log -> Reader -> Log -> Prop :=
| Discards_none (r : Reader) (lg : Log) : Discards ResolveUDPAddr p r lg r lg
| Discards_frame (r r1 r' : Reader) (lg lg' : Log) (addrStr : gostring)
    (payload : list byte) (e : error) :
    ReadDatagram r = (Ok (addrStr, payload), r1) ->
    len payload <= len p ->
    ResolveUDPAddr addrStr = Err e ->
    Discards ResolveUDPAddr p r1 (lg ++ [(addrStr, e)]) r' lg' ->
    Discards ResolveUDPAddr p r lg r' lg'.

(** How one iteration of the receive loop that does not discard ends, at
    stream [r] with log [lg]. *)
Definition ReadFrom_final (ResolveUDPAddr : gostring -> result net.UDPAddr)
    (p : list byte) (r : Reader) (lg : Log) (res : ReadFromResult) : Prop :=
  match ReadDatagram r with
  | (Err err, r') =>
      res = {| rf_n := 0; rf_addr := None; rf_err := Some err;
               rf_stream := r'; rf_buf := p; rf_log := lg |}
  | (Ok (addrStr, payload), r') =>
      if len payload >? len p then
        res = {| rf_n := 0; rf_addr := None; rf_err := Some ErrShortBuffer;
                 rf_stream := r'; rf_buf := p; rf_log := lg |}
      else
        exists udpAddr,
          ResolveUDPAddr addrStr = Ok udpAddr
          /\ res = {| rf_n := len payload; rf_addr := Some udpAddr;
                      rf_err := None; rf_stream := r';
                      rf_buf := copy p payload; rf_log := lg |}
  end.

(** ** [rules/wrapper/wrapper.go] *)

(** [time]: an instant is its number of nanoseconds since the Unix epoch
    (the wall clock only). *)
Module time.

Definition Time := Z.

(** The conversion [int64(x)]: two's complement on 64 bits. *)
Definition int64 (z : Z) : Z :=
  (z + 9223372036854775808) mod 18446744073709551616 - 9223372036854775808.

(** [Time.UnixMicro]: the microseconds since the epoch, as an [int64]. *)
Definition Time_UnixMicro (t : Time) : Z := int64 (t / 1000).

(** [time.UnixMicro]: the instant [usec] microseconds after the epoch. *)
Definition UnixMicro (usec : Z) : Time := usec * 1000.

End time.

Module wrapper.

(** The conversion [uint64(x)], for [atomic.Uint64.Add]. *)
Definition uint64 (z : Z) : Z := z mod 18446744073709551616.

(** [C.Rule] as far as the wrapper uses it: its [Match] method. *)
Class C_Rule (R Metadata Helper : Type) :=
  Rule_Match : R -> Metadata -> Helper -> bool * gostring.

(** [RuleWrapper]: the embedded rule and the five atomic fields. *)
Record RuleWrapper (R : Type) := {
  Rule : R;
  disabled : bool;
  hitCount : Z;
  hitAt : Z;      (* unix microsecond *)
  missCount : Z;
  missAt : Z      (* unix microsecond *)
}.
Arguments Rule {R} r.
Arguments disabled {R} r.
Arguments hitCount {R} r.
Arguments hitAt {R} r.
Arguments missCount {R} r.
Arguments missAt {R} r.

Section Wrapper.

Context {R Metadata Helper : Type} `{C_Rule R Metadata Helper}.

Definition IsDisabled (r : RuleWrapper R) : bool := disabled r.

Definition SetDisabled (v : bool) (r : RuleWrapper R) : RuleWrapper R :=
  {| Rule := Rule r; disabled := v; hitCount := hitCount r; hitAt := hitAt r;
     missCount := missCount r; missAt := missAt r |}.

Definition HitCount (r : RuleWrapper R) : Z := hitCount r.

Definition HitAt (r : RuleWrapper R) : time.Time := time.UnixMicro (hitAt r).

Definition MissCount (r : RuleWrapper R) : Z := missCount r.

Definition MissAt (r : RuleWrapper R) : time.Time := time.UnixMicro (missAt r).

Definition Unwrap (r : RuleWrapper R) : R := Rule r.

(** [Hit], with [now] what [time.Now()] returns during the call. *)
Definition Hit (now : time.Time) (r : RuleWrapper R) : RuleWrapper R :=
  {| Rule := Rule r; disabled := disabled r;
     hitCount := uint64 (hitCount r + 1);
     hitAt := time.Time_UnixMicro now;
     missCount := missCount r; missAt := missAt r |}.

Definition Miss (now : time.Time) (r : RuleWrapper R) : RuleWrapper R :=
  {| Rule := Rule r; disabled := disabled r;
     hitCount := hitCount r; hitAt := hitAt r;
     missCount := uint64 (missCount r + 1);
     missAt := time.Time_UnixMicro now |}.

(** [Match]: the returned [(bool, string)] and the wrapper afterwards. *)
Definition Match (now : time.Time) (r : RuleWrapper R)
    (metadata : Metadata) (helper : Helper)
    : (bool * gostring) * RuleWrapper R :=
  if IsDisabled r then ((false, []), r)
  else
    let '(ok, adapter) := Rule_Match (Rule r) metadata helper in
    ((ok, adapter), if ok then Hit now r else Miss now r).

Definition NewRuleWrapper (rule : R) : RuleWrapper R :=
  {| Rule := rule; disabled := false; hitCount := 0; hitAt := 0;
     missCount := 0; missAt := 0 |}.

(** A caller's sequence of calls of [Match], each with the clock reading
    of that call: the results in order and the wrapper afterwards. *)
Fixpoint MatchAll (calls : list (time.Time * Metadata * Helper))
    (r : RuleWrapper R) : list (bool * gostring) * RuleWrapper R :=
  match calls with
  | [] => ([], r)
  | (now, metadata, helper) :: calls =>
      let '(res, r) := Match now r metadata helper in
      let '(ress, r) := MatchAll calls r in
      (res :: ress, r)
  end.

End Wrapper.

End wrapper.

(** An example rule: it matches the metadata equal to [exact_host] and
    names its adapter. *)
Record ExactRule := { exact_host : gostring; exact_adapter : gostring }.
#[export] Instance ExactRule_Rule : wrapper.C_Rule ExactRule gostring unit :=
  fun r metadata _ =>
    (if list_eq_dec Byte.byte_eq_dec metadata (exact_host r) then true else false,
     exact_adapter r).

(** * Properties *)

(** ** Bytes and big-endian fields *)

Lemma byte_val_range (b : byte) : 0 <= byte_val b <= 255.
Proof.
  unfold byte_val. pose proof (Byte.to_N_bounded b). lia.
Qed.

Lemma byte_val_to_byte (z : Z) : byte_val (to_byte z) = z mod 256.
Proof.
  unfold byte_val, to_byte.
  pose proof (Z.mod_pos_bound z 256 ltac:(lia)) as Hm.
  destruct (Byte.of_N (Z.to_N (z mod 256))) as [b|] eqn:E.
  - apply Byte.to_of_N in E. rewrite E. apply Z2N.id. lia.
  - apply Byte.of_N_None_iff in E. lia.
Qed.

Lemma to_byte_byte_val (b : byte) : to_byte (byte_val b) = b.
Proof.
  unfold to_byte. pose proof (byte_val_range b).
  rewrite Z.mod_small by lia. unfold byte_val.
  rewrite N2Z.id, Byte.of_to_N. reflexivity.
Qed.

Lemma byte_val_inj (a b : byte) : byte_val a = byte_val b -> a = b.
Proof.
  intros H. rewrite <- (to_byte_byte_val a), <- (to_byte_byte_val b).
  now rewrite H.
Qed.

Lemma lor_shiftl_8 (x y : Z) :
  0 <= x < 256 -> Z.lor x (Z.shiftl y 8) = x + 256 * y.
Proof.
  intros Hx.
  assert (Hland : Z.land x (Z.shiftl y 8) = 0).
  { apply Z.bits_inj'. intros n Hn.
    rewrite Z.land_spec, Z.bits_0.
    destruct (Z.ltb_spec n 8).
    - rewrite Z.shiftl_spec_low by lia. apply andb_false_r.
    - assert (Z.testbit x n = false) as ->; [|reflexivity].
      destruct (Z.eq_dec x 0) as [->|]; [apply Z.bits_0|].
      apply Z.bits_above_log2; [lia|].
      apply Z.lt_le_trans with 8; [|lia].
      apply Z.log2_lt_pow2; lia. }
  rewrite <- Z.lxor_lor by exact Hland.
  rewrite <- Z.add_nocarry_lxor by exact Hland.
  rewrite Z.shiftl_mul_pow2 by lia. change (2 ^ 8) with 256. lia.
Qed.

Lemma Uint16_bytes (a b : byte) :
  binary.Uint16 [a; b] = 256 * byte_val a + byte_val b.
Proof.
  unfold binary.Uint16. simpl nth.
  rewrite lor_shiftl_8 by (pose proof (byte_val_range b); lia). lia.
Qed.

Lemma Uint16_range (a b : byte) : 0 <= binary.Uint16 [a; b] <= 65535.
Proof.
  rewrite Uint16_bytes.
  pose proof (byte_val_range a). pose proof (byte_val_range b). lia.
Qed.

Lemma Uint16_PutUint16 (v : Z) :
  binary.Uint16 (binary.PutUint16 v) = v mod 65536.
Proof.
  unfold binary.PutUint16. rewrite Uint16_bytes, !byte_val_to_byte.
  rewrite Z.shiftr_div_pow2 by lia. change (2 ^ 8) with 256.
  change 65536 with (256 * 256).
  rewrite (Z.rem_mul_r v 256 256) by lia. lia.
Qed.

Lemma PutUint16_length (v : Z) : length (binary.PutUint16 v) = 2%nat.
Proof. reflexivity. Qed.

(** ** Reading from a stream *)

Lemma ReadFull_app (b rest : list byte) :
  io.ReadFull (length b) (b ++ rest) = (Ok b, rest).
Proof.
  unfold io.ReadFull.
  destruct (Nat.eqb_spec (length b) 0) as [E|E].
  - destruct b; [reflexivity|discriminate].
  - rewrite length_app.
    destruct (Nat.leb_spec (length b) (length b + length rest)); [|lia].
    rewrite firstn_app, Nat.sub_diag, firstn_all, firstn_O, app_nil_r.
    rewrite skipn_app, Nat.sub_diag, skipn_all. reflexivity.
Qed.

Lemma ReadFull_enough (n : nat) (r : Reader) :
  (n <= length r)%nat ->
  io.ReadFull n r = (Ok (firstn n r), skipn n r).
Proof.
  intros H. unfold io.ReadFull.
  destruct (Nat.eqb_spec n 0) as [->|E]; [reflexivity|].
  destruct (Nat.leb_spec n (length r)); [reflexivity|lia].
Qed.

Lemma ReadFull_Ok (n : nat) (r r' : Reader) (b : list byte) :
  io.ReadFull n r = (Ok b, r') -> r = b ++ r' /\ length b = n.
Proof.
  unfold io.ReadFull.
  destruct (Nat.eqb_spec n 0) as [->|E].
  - intros [= <- <-]. split; reflexivity.
  - destruct (Nat.leb_spec n (length r)).
    + intros [= <- <-]. split; [symmetry; apply firstn_skipn|].
      apply firstn_length_le; assumption.
    + destruct r; discriminate.
Qed.

Lemma ReadFull_Err (n : nat) (r r' : Reader) (e : error) :
  io.ReadFull n r = (Err e, r') ->
  (e = EOF \/ e = ErrUnexpectedEOF) /\ r' = [] /\ (length r < n)%nat.
Proof.
  unfold io.ReadFull.
  destruct (Nat.eqb_spec n 0); [discriminate|].
  destruct (Nat.leb_spec n (length r)); [discriminate|].
  destruct r; intros [= <- <-]; auto.
Qed.

(** ** The datagram framer *)

(** [ReadDatagram] once the four header bytes are there. *)
Lemma ReadDatagram_header (h0 h1 h2 h3 : byte) (rest : Reader) :
  ReadDatagram (h0 :: h1 :: h2 :: h3 :: rest) =
  let addrLen := binary.Uint16 [h0; h1] in
  let payloadLen := binary.Uint16 [h2; h3] in
  if (addrLen <=? 0) || (addrLen >? maxUoTPayload)
  then (Err (ErrInvalidAddrLen addrLen), rest)
  else if (payloadLen <? 0) || (payloadLen >? maxUoTPayload)
  then (Err (ErrInvalidPayloadLen payloadLen), rest)
  else
    match io.ReadFull (Z.to_nat addrLen) rest with
    | (Err e, r) => (Err e, r)
    | (Ok addrBuf, r) =>
        match decodeAddress addrBuf with
        | (Err err, _) => (Err (ErrDecodeAddress err), r)
        | (Ok addr, _) =>
            match io.ReadFull (Z.to_nat payloadLen) r with
            | (Err e, r') => (Err e, r')
            | (Ok payload, r') => (Ok (addr, payload), r')
            end
        end
    end.
Proof.
  unfold ReadDatagram, bind. cbn [io.ReadFull Nat.eqb length Nat.leb firstn skipn].
  change (slice [h0; h1; h2; h3] 0 2) with [h0; h1].
  change (slice [h0; h1; h2; h3] 2 4) with [h2; h3].
  cbv zeta.
  destruct ((binary.Uint16 [h0; h1] <=? 0) || (binary.Uint16 [h0; h1] >? maxUoTPayload));
    [reflexivity|].
  destruct ((binary.Uint16 [h2; h3] <? 0) || (binary.Uint16 [h2; h3] >? maxUoTPayload));
    [reflexivity|].
  destruct (io.ReadFull _ rest) as [[addrBuf|e] r]; [|reflexivity].
  destruct (decodeAddress addrBuf) as [[addr|e] r0]; reflexivity.
Qed.

(** A stream shorter than a header ends the read with a stream error. *)
Lemma ReadDatagram_short (r : Reader) :
  (length r < 4)%nat ->
  exists e, ReadDatagram r = (Err e, []) /\ (e = EOF \/ e = ErrUnexpectedEOF).
Proof.
  intros H.
  destruct r as [|h0 [|h1 [|h2 [|h3 rest]]]]; simpl in H; try lia;
    eexists; (split; [reflexivity|auto]).
Qed.

(** The payload-length test of [ReadDatagram] never fires. *)
Lemma payloadLen_check_false (h2 h3 : byte) :
  (binary.Uint16 [h2; h3] <? 0) || (binary.Uint16 [h2; h3] >? maxUoTPayload)
  = false.
Proof.
  pose proof (Uint16_range h2 h3). unfold maxUoTPayload.
  apply orb_false_iff. split; [apply Z.ltb_ge; lia|].
  rewrite Z.gtb_ltb. apply Z.ltb_ge. lia.
Qed.

(** A frame read successfully took its header and at least one address
    byte off the stream. *)
Lemma ReadDatagram_Ok_consumes (r r' : Reader) (x : gostring * list byte) :
  ReadDatagram r = (Ok x, r') -> (length r' + 5 <= length r)%nat.
Proof.
  destruct (Nat.lt_ge_cases (length r) 4) as [Hs|Hl].
  - destruct (ReadDatagram_short r Hs) as (e & -> & _). discriminate.
  - destruct r as [|h0 [|h1 [|h2 [|h3 rest]]]]; simpl in Hl; try lia.
    rewrite ReadDatagram_header. cbv zeta.
    destruct ((binary.Uint16 [h0; h1] <=? 0) || _) eqn:Ea; [discriminate|].
    rewrite payloadLen_check_false.
    apply orb_false_iff in Ea. destruct Ea as [Ea _]. apply Z.leb_gt in Ea.
    destruct (io.ReadFull _ rest) as [[addrBuf|e] r1] eqn:E1; [|discriminate].
    apply ReadFull_Ok in E1. destruct E1 as [-> Hlen].
    destruct (decodeAddress addrBuf) as [[addr|e] r0]; [|discriminate].
    destruct (io.ReadFull _ r1) as [[payload|e] r2] eqn:E2; [|discriminate].
    apply ReadFull_Ok in E2. destruct E2 as [-> _].
    intros [= _ <-]. simpl. rewrite !length_app. lia.
Qed.

(** C7. A header whose address-length field is 0 makes [ReadDatagram] fail
    with the invalid-address-length error, and the stream is left right
    after the four header bytes: nothing more of the frame is read. *)
Theorem ReadDatagram_zero_addrLen (h0 h1 h2 h3 : byte) (rest : Reader) :
  binary.Uint16 [h0; h1] = 0 ->
  ReadDatagram (h0 :: h1 :: h2 :: h3 :: rest) = (Err (ErrInvalidAddrLen 0), rest).
Proof.
  intros H. rewrite ReadDatagram_header. cbv zeta. rewrite H. reflexivity.
Qed.

Lemma ReadDatagram_zero_addrLen_witness :
  binary.Uint16 [x00; x00] = 0 /\
  ReadDatagram [x00; x00; x00; x03; x01; x5d; xb8; xd8; x22; x01; xbb; x01; x02; x03]
  = (Err (ErrInvalidAddrLen 0), [x01; x5d; xb8; xd8; x22; x01; xbb; x01; x02; x03]).
Proof.
  split; [reflexivity|].
  apply (ReadDatagram_zero_addrLen x00 x00 x00 x03). reflexivity.
Defined.

(** Every error of [ReadDatagram]: a length error can only be the
    address-length one, for a declared length of 0. *)
Lemma ReadDatagram_error_cases (r r' : Reader) (e : error) :
  ReadDatagram r = (Err e, r') ->
  match e with
  | ErrInvalidPayloadLen _ => False
  | ErrInvalidAddrLen n => n = 0
  | EOF | ErrUnexpectedEOF | ErrDecodeAddress _ => True
  | _ => False
  end.
Proof.
  destruct (Nat.lt_ge_cases (length r) 4) as [Hs|Hl].
  - destruct (ReadDatagram_short r Hs) as (e' & -> & He).
    intros [= <- _]. destruct He as [->| ->]; exact I.
  - destruct r as [|h0 [|h1 [|h2 [|h3 rest]]]]; simpl in Hl; try lia.
    rewrite ReadDatagram_header. cbv zeta.
    rewrite payloadLen_check_false.
    pose proof (Uint16_range h0 h1) as Ha.
    destruct ((binary.Uint16 [h0; h1] <=? 0) || _) eqn:Ea.
    + intros [= <- _]. apply orb_true_iff in Ea. destruct Ea as [Ea|Ea].
      * apply Z.leb_le in Ea. lia.
      * rewrite Z.gtb_ltb in Ea. apply Z.ltb_lt in Ea.
        unfold maxUoTPayload in Ea. lia.
    + destruct (io.ReadFull _ rest) as [[addrBuf|e1] r1] eqn:E1.
      * destruct (decodeAddress addrBuf) as [[addr|e2] r0].
        -- destruct (io.ReadFull _ r1) as [[payload|e3] r2] eqn:E3;
             [discriminate|].
           intros [= <- _]. apply ReadFull_Err in E3.
           destruct E3 as [[->| ->] _]; exact I.
        -- intros [= <- _]. exact I.
      * intros [= <- _]. apply ReadFull_Err in E1.
        destruct E1 as [[->| ->] _]; exact I.
Qed.

(** C10. The payload-length field is read from sixteen bits, so it lies in
    [0, 65535], inside [0, maxUoTPayload] = [0, 65536]; hence, whatever the
    stream, [ReadDatagram] never returns the invalid-payload-length error,
    and when it returns the invalid-address-length error the declared
    address length is 0. *)
Theorem payload_length_error_unreachable :
  maxUoTPayload = 65536
  /\ (forall h2 h3 : byte,
        0 <= binary.Uint16 [h2; h3] <= 65535
        /\ (binary.Uint16 [h2; h3] <? 0)
           || (binary.Uint16 [h2; h3] >? maxUoTPayload) = false)
  /\ (forall (r r' : Reader) (e : error),
        ReadDatagram r = (Err e, r') ->
        (forall n, e <> ErrInvalidPayloadLen n)
        /\ (forall n, e = ErrInvalidAddrLen n -> n = 0)).
Proof.
  split; [reflexivity|]. split.
  - intros h2 h3. split; [apply Uint16_range|apply payloadLen_check_false].
  - intros r r' e H. apply ReadDatagram_error_cases in H.
    split; intros n; [intros ->; exact H|intros ->; exact H].
Qed.

Lemma payload_length_error_unreachable_witness :
  ReadDatagram [x00; x00; xff; xff; x01] = (Err (ErrInvalidAddrLen 0), [x01])
  /\ ReadDatagram [x00; x01; xff; xff; x02]
     = (Err (ErrDecodeAddress (ErrUnknownAddrType x02)), [])
  /\ (forall n, ErrDecodeAddress (ErrUnknownAddrType x02) <> ErrInvalidPayloadLen n).
Proof.
  split; [reflexivity|]. split; [reflexivity|].
  exact (proj1 (proj2 (proj2 payload_length_error_unreachable)
                  [x00; x01; xff; xff; x02] []
                  (ErrDecodeAddress (ErrUnknownAddrType x02)) eq_refl)).
Defined.

(** ** Address decoding *)

Lemma decodeAddress_unknown_tag (b : byte) (rest : Reader) :
  b <> x01 -> b <> x03 -> b <> x04 ->
  decodeAddress (b :: rest) = (Err (ErrUnknownAddrType b), rest).
Proof.
  intros H1 H3 H4. destruct b; solve [reflexivity | congruence].
Qed.

(** C5. An address whose first byte is none of the tags 1, 3, 4 is
    rejected by [decodeAddress] with the unknown-type error after that one
    byte has been read (the function is total: no input makes it diverge or
    read beyond the stream), and [ReadDatagram] on a frame that carries
    such an address fails with that error wrapped as a decode error. *)
Theorem unknown_tag_rejected (b : byte) (addrRest : list byte) :
  b <> x01 -> b <> x03 -> b <> x04 ->
  decodeAddress (b :: addrRest) = (Err (ErrUnknownAddrType b), addrRest)
  /\ forall (h0 h1 h2 h3 : byte) (tail : Reader),
       binary.Uint16 [h0; h1] = len (b :: addrRest) ->
       ReadDatagram (h0 :: h1 :: h2 :: h3 :: (b :: addrRest) ++ tail)
       = (Err (ErrDecodeAddress (ErrUnknownAddrType b)), tail).
Proof.
  intros H1 H3 H4.
  pose proof (decodeAddress_unknown_tag b addrRest H1 H3 H4) as Hd.
  split; [exact Hd|].
  intros h0 h1 h2 h3 tail Hlen.
  rewrite ReadDatagram_header. cbv zeta.
  rewrite payloadLen_check_false.
  pose proof (Uint16_range h0 h1) as Ha.
  assert (Hpos : 0 < binary.Uint16 [h0; h1])
    by (rewrite Hlen; unfold len; simpl length; lia).
  destruct ((binary.Uint16 [h0; h1] <=? 0) || _) eqn:Ea.
  { apply orb_true_iff in Ea. destruct Ea as [Ea|Ea].
    - apply Z.leb_le in Ea. lia.
    - rewrite Z.gtb_ltb in Ea. apply Z.ltb_lt in Ea.
      unfold maxUoTPayload in Ea. lia. }
  rewrite Hlen. unfold len. rewrite Nat2Z.id.
  rewrite ReadFull_app, Hd. reflexivity.
Qed.

Lemma unknown_tag_rejected_witness :
  decodeAddress [x02; x5d; xb8; xd8; x22; x01; xbb]
  = (Err (ErrUnknownAddrType x02), [x5d; xb8; xd8; x22; x01; xbb])
  /\ ReadDatagram [x00; x07; x00; x03; x02; x5d; xb8; xd8; x22; x01; xbb; x01; x02; x03]
     = (Err (ErrDecodeAddress (ErrUnknownAddrType x02)), [x01; x02; x03]).
Proof.
  assert (H : x02 <> x01 /\ x02 <> x03 /\ x02 <> x04)
    by (repeat split; discriminate).
  destruct H as (H1 & H3 & H4).
  destruct (unknown_tag_rejected x02 [x5d; xb8; xd8; x22; x01; xbb] H1 H3 H4)
    as [Hd Hr].
  split; [exact Hd|].
  apply (Hr x00 x07 x00 x03 [x01; x02; x03]). reflexivity.
Defined.

(** ** The packet adapter: [ReadFrom] *)

Section ReadFromFacts.

Variable ResolveUDPAddr : gostring -> result net.UDPAddr.

Let loop := ReadFrom_loop ResolveUDPAddr.

Lemma ReadFrom_loop_short_buffer fuel r p lg addrStr payload r' :
  ReadDatagram r = (Ok (addrStr, payload), r') ->
  len payload > len p ->
  loop (S fuel) r p lg =
  Some {| rf_n := 0; rf_addr := None; rf_err := Some ErrShortBuffer;
          rf_stream := r'; rf_buf := p; rf_log := lg |}.
Proof.
  intros Hr Hlen. unfold loop. simpl. rewrite Hr.
  destruct (Z.gtb_spec (len payload) (len p)); [reflexivity|lia].
Qed.

Lemma ReadFrom_loop_skip fuel r p lg addrStr payload r' e :
  ReadDatagram r = (Ok (addrStr, payload), r') ->
  len payload <= len p ->
  ResolveUDPAddr addrStr = Err e ->
  loop (S fuel) r p lg = loop fuel r' p (lg ++ [(addrStr, e)]).
Proof.
  intros Hr Hlen He. unfold loop. simpl. rewrite Hr.
  destruct (Z.gtb_spec (len payload) (len p)); [lia|].
  rewrite He. reflexivity.
Qed.

Lemma ReadFrom_loop_deliver fuel r p lg addrStr payload r' udpAddr :
  ReadDatagram r = (Ok (addrStr, payload), r') ->
  len payload <= len p ->
  ResolveUDPAddr addrStr = Ok udpAddr ->
  loop (S fuel) r p lg =
  Some {| rf_n := len payload; rf_addr := Some udpAddr; rf_err := None;
          rf_stream := r'; rf_buf := copy p payload; rf_log := lg |}.
Proof.
  intros Hr Hlen He. unfold loop. simpl. rewrite Hr.
  destruct (Z.gtb_spec (len payload) (len p)); [lia|].
  rewrite He. reflexivity.
Qed.

(** The loop returns as soon as its fuel exceeds the length of the
    stream. *)
Lemma ReadFrom_loop_total fuel :
  forall r p lg, (length r < fuel)%nat ->
  exists res, loop fuel r p lg = Some res.
Proof.
  induction fuel as [|fuel IH]; intros r p lg Hf; [lia|].
  unfold loop. simpl.
  destruct (ReadDatagram r) as [[[addrStr payload]|e] r'] eqn:Hr.
  - destruct (len payload >? len p); [eexists; reflexivity|].
    destruct (ResolveUDPAddr addrStr); [eexists; reflexivity|].
    apply IH. apply ReadDatagram_Ok_consumes in Hr. lia.
  - eexists; reflexivity.
Qed.

(** [ReadFrom] always returns. *)
Lemma ReadFrom_total {W} (c : UoTPacketConn W) p lg :
  exists res, ReadFrom ResolveUDPAddr c p lg = Some res.
Proof. apply ReadFrom_loop_total. lia. Qed.

End ReadFromFacts.

(** C4. When the frame the receive loop has just read carries a payload
    strictly larger than the caller's buffer, [ReadFrom] returns
    [(0, nil, io.ErrShortBuffer)], the caller's buffer is unchanged, and the
    loop stops there: the stream is left right after that frame and nothing
    is logged.  This holds at every iteration of the loop, hence for the
    call as a whole when the frame is the first on the stream. *)
Theorem ReadFrom_short_buffer
    (ResolveUDPAddr : gostring -> result net.UDPAddr) {W}
    (c : UoTPacketConn W) (p : list byte) (lg : Log)
    (addrStr : gostring) (payload : list byte) (r' : Reader) :
  ReadDatagram (incoming (conn c)) = (Ok (addrStr, payload), r') ->
  len payload > len p ->
  let res := {| rf_n := 0; rf_addr := None; rf_err := Some ErrShortBuffer;
                rf_stream := r'; rf_buf := p; rf_log := lg |} in
  ReadFrom ResolveUDPAddr c p lg = Some res
  /\ forall fuel,
       ReadFrom_loop ResolveUDPAddr (S fuel) (incoming (conn c)) p lg = Some res.
Proof.
  intros Hr Hlen res. split.
  - unfold ReadFrom. eapply ReadFrom_loop_short_buffer; eassumption.
  - intros fuel. eapply ReadFrom_loop_short_buffer; eassumption.
Qed.

Lemma ReadFrom_short_buffer_witness :
  ReadFrom literalResolver (stream_conn (frame_1_2_3_4 ++ frame_1_2_3_4)) [] []
  = Some {| rf_n := 0; rf_addr := None; rf_err := Some ErrShortBuffer;
            rf_stream := frame_1_2_3_4; rf_buf := []; rf_log := [] |}.
Proof.
  refine (proj1 (ReadFrom_short_buffer literalResolver
                   (stream_conn (frame_1_2_3_4 ++ frame_1_2_3_4)) [] []
                   (str "1.2.3.4:53") [xcc] frame_1_2_3_4 _ _)).
  - reflexivity.
  - reflexivity.
Defined.

(** C9. The buffer-size test comes before address resolution: a frame
    whose payload is larger than the caller's buffer ends [ReadFrom] with
    [io.ErrShortBuffer] also when its address does not resolve; the frame
    is not skipped and no discard is logged. *)
Theorem ReadFrom_short_buffer_before_resolution
    (ResolveUDPAddr : gostring -> result net.UDPAddr) {W}
    (c : UoTPacketConn W) (p : list byte) (lg : Log)
    (addrStr : gostring) (payload : list byte) (r' : Reader) (e : error) :
  ReadDatagram (incoming (conn c)) = (Ok (addrStr, payload), r') ->
  ResolveUDPAddr addrStr = Err e ->
  len payload > len p ->
  ReadFrom ResolveUDPAddr c p lg =
  Some {| rf_n := 0; rf_addr := None; rf_err := Some ErrShortBuffer;
          rf_stream := r'; rf_buf := p; rf_log := lg |}.
Proof.
  intros Hr _ Hlen. unfold ReadFrom.
  eapply ReadFrom_loop_short_buffer; eassumption.
Qed.

Lemma ReadFrom_short_buffer_before_resolution_witness :
  ReadFrom literalResolver (stream_conn (frame_example_com ++ frame_1_2_3_4))
    [x00] []
  = Some {| rf_n := 0; rf_addr := None; rf_err := Some ErrShortBuffer;
            rf_stream := frame_1_2_3_4; rf_buf := [x00]; rf_log := [] |}.
Proof.
  refine (ReadFrom_short_buffer_before_resolution literalResolver
            (stream_conn (frame_example_com ++ frame_1_2_3_4)) [x00] []
            (str "example.com:53") [xaa; xbb] frame_1_2_3_4
            (ErrResolve (str "example.com")) _ _ _).
  - reflexivity.
  - reflexivity.
  - reflexivity.
Defined.

(** C3, the claim as stated fails: the stream holds a well-formed frame
    whose address does not resolve, then a well-formed frame whose address
    resolves, and yet [ReadFrom] with a one-byte buffer neither skips the
    first frame nor returns the second: the first payload (two bytes) does
    not fit, and the call ends with [io.ErrShortBuffer]. *)
Lemma ReadFrom_skip_counterexample :
  ReadDatagram (frame_example_com ++ frame_1_2_3_4)
  = (Ok (str "example.com:53", [xaa; xbb]), frame_1_2_3_4)
  /\ literalResolver (str "example.com:53") = Err (ErrResolve (str "example.com"))
  /\ ReadDatagram frame_1_2_3_4 = (Ok (str "1.2.3.4:53", [xcc]), [])
  /\ literalResolver (str "1.2.3.4:53")
     = Ok {| net.IP := repeat x00 10 ++ [xff; xff; x01; x02; x03; x04];
             net.Port := 53; net.Zone := [] |}
  /\ ReadFrom literalResolver
       (stream_conn (frame_example_com ++ frame_1_2_3_4)) [x00] []
     = Some {| rf_n := 0; rf_addr := None; rf_err := Some ErrShortBuffer;
               rf_stream := frame_1_2_3_4; rf_buf := [x00]; rf_log := [] |}.
Proof. repeat split; reflexivity. Qed.

(** C3, amended. When the stream holds a well-formed frame whose address
    fails resolution followed by a well-formed frame whose address
    resolves, and both payloads fit in the caller's buffer, [ReadFrom]
    skips the first frame, logging its address and the resolver's error,
    and returns the second frame's payload length and resolved address
    without error; the payload is copied to the front of the buffer. *)
Theorem ReadFrom_skips_unresolvable
    (ResolveUDPAddr : gostring -> result net.UDPAddr) {W}
    (c : UoTPacketConn W) (p : list byte) (lg : Log)
    (addr1 addr2 : gostring) (payload1 payload2 : list byte)
    (r1 r2 : Reader) (e : error) (udpAddr : net.UDPAddr) :
  ReadDatagram (incoming (conn c)) = (Ok (addr1, payload1), r1) ->
  ResolveUDPAddr addr1 = Err e ->
  ReadDatagram r1 = (Ok (addr2, payload2), r2) ->
  ResolveUDPAddr addr2 = Ok udpAddr ->
  len payload1 <= len p ->
  len payload2 <= len p ->
  ReadFrom ResolveUDPAddr c p lg =
  Some {| rf_n := len payload2; rf_addr := Some udpAddr; rf_err := None;
          rf_stream := r2; rf_buf := copy p payload2;
          rf_log := lg ++ [(addr1, e)] |}.
Proof.
  intros H1 He1 H2 He2 Hl1 Hl2. unfold ReadFrom.
  rewrite (ReadFrom_loop_skip _ _ _ _ _ _ _ _ _ H1 Hl1 He1).
  pose proof (ReadDatagram_Ok_consumes _ _ _ H1) as Hc.
  destruct (length (incoming (conn c))) as [|n]; [lia|].
  eapply ReadFrom_loop_deliver; eassumption.
Qed.

Lemma ReadFrom_skips_unresolvable_witness :
  ReadFrom literalResolver (stream_conn (frame_example_com ++ frame_1_2_3_4))
    [x00; x00; x00] []
  = Some {| rf_n := 1;
            rf_addr := Some {| net.IP := repeat x00 10 ++ [xff; xff; x01; x02; x03; x04];
                               net.Port := 53; net.Zone := [] |};
            rf_err := None; rf_stream := []; rf_buf := [xcc; x00; x00];
            rf_log := [(str "example.com:53", ErrResolve (str "example.com"))] |}.
Proof.
  refine (ReadFrom_skips_unresolvable literalResolver
            (stream_conn (frame_example_com ++ frame_1_2_3_4))
            [x00; x00; x00] [] (str "example.com:53") (str "1.2.3.4:53")
            [xaa; xbb] [xcc] frame_1_2_3_4 [] (ErrResolve (str "example.com"))
            _ _ _ _ _ _ _).
  - reflexivity.
  - reflexivity.
  - reflexivity.
  - reflexivity.
  - vm_compute. discriminate.
  - vm_compute. discriminate.
Defined.

(** ** The packet adapter: [WriteTo] *)

(** C8. For a destination that is not nil, a call of [WriteTo] that
    succeeds returns [len(p)], the length of the payload (not the number of
    bytes put on the stream); for a nil destination it fails with the
    nil-address error and the adapter, hence the stream, is unchanged. *)
Theorem WriteTo_returns_payload_length
    (lookupPort : gostring -> result Z) {W} `{Writer W}
    (c : UoTPacketConn W) (p : list byte) :
  (forall (addr : net.Addr) (n : Z) (c' : UoTPacketConn W),
      WriteTo lookupPort c p (Some addr) = ((n, None), c') -> n = len p)
  /\ WriteTo lookupPort c p None = ((0, Some ErrNilAddress), c).
Proof.
  split; [|reflexivity].
  intros addr n c'. unfold WriteTo.
  destruct (WriteDatagram lookupPort (outgoing (conn c)) (net.String addr) p)
    as [w [err|]]; intros [= <- _]. reflexivity.
Qed.

Lemma WriteTo_returns_payload_length_witness :
  let dst := {| net.Network := str "udp"; net.String := str "93.184.216.34:443" |} in
  let r := WriteTo builtinServices (stream_conn []) [x01; x02; x03] (Some dst) in
  snd (fst r) = None
  /\ fst (fst r) = 3
  /\ len (outgoing (conn (snd r))) = 14
  /\ WriteTo builtinServices (stream_conn []) [x01; x02; x03] None
     = ((0, Some ErrNilAddress), stream_conn []).
Proof.
  intros dst r.
  destruct (WriteTo_returns_payload_length builtinServices (stream_conn [])
              [x01; x02; x03]) as [Hn Hnil].
  split; [reflexivity|]. split; [|split; [reflexivity|exact Hnil]].
  apply (Hn dst (fst (fst r)) (snd r)). reflexivity.
Defined.

(** A failing stream: with room for five bytes the header goes through,
    the write of the address fails after one byte, and [WriteTo] reports
    [(0, err)]. *)
Example WriteTo_broken_pipe :
  WriteTo builtinServices
    (NewUoTPacketConn
       {| incoming := []; outgoing := {| written := []; room := 5 |} |})
    [x01; x02; x03]
    (Some {| net.Network := str "udp"; net.String := str "93.184.216.34:443" |})
  = ((0, Some (ErrTransport (str "write: broken pipe"))),
     NewUoTPacketConn
       {| incoming := [];
          outgoing := {| written := [x00; x07; x00; x03; x01]; room := 0 |} |}).
Proof. reflexivity. Qed.

(** ** Address encoding *)

Lemma LookupPort_range lookupPort service port :
  net.LookupPort lookupPort service = Ok port -> 0 <= port <= 65535.
Proof.
  unfold net.LookupPort. destruct (net.parsePort service) as [p needs].
  destruct (if needs then lookupPort service else Ok p) as [q|e];
    [|discriminate].
  destruct ((0 >? q) || (q >? 65535)) eqn:E; [discriminate|].
  intros [= <-]. apply orb_false_iff in E. destruct E as [E1 E2].
  rewrite Z.gtb_ltb in E1, E2. apply Z.ltb_ge in E1, E2. lia.
Qed.

Lemma PutUint16_port (port : Z) :
  0 <= port <= 65535 ->
  binary.PutUint16 (uint16 port) = [to_byte (port / 256); to_byte port]
  /\ 256 * byte_val (to_byte (port / 256)) + byte_val (to_byte port) = port.
Proof.
  intros H. unfold uint16. rewrite Z.mod_small by lia.
  unfold binary.PutUint16. rewrite Z.shiftr_div_pow2 by lia.
  change (2 ^ 8) with 256. split; [reflexivity|].
  rewrite !byte_val_to_byte. rewrite (Z.mod_small (port / 256)).
  - pose proof (Z.div_mod port 256). lia.
  - split; [apply Z.div_pos; lia|apply Z.div_lt_upper_bound; lia].
Qed.

(** C6. An endpoint whose host is a domain name (not an IP literal) is
    encoded when the name has at most 255 bytes, in particular exactly 255,
    and the encoding is the tag 3, one byte holding the length of the name,
    the bytes of the name and the port in two bytes, high byte first; with
    a name of 256 bytes or more [encodeAddress] fails with the
    domain-too-long error. *)
Theorem encodeAddress_domain
    (lookupPort : gostring -> result Z)
    (rawAddr host portStr : gostring) (port : Z) :
  net.SplitHostPort rawAddr = Ok (host, portStr) ->
  net.LookupPort lookupPort portStr = Ok port ->
  net.ParseIP host = None ->
  ((length host <= 255)%nat ->
     exists lengthByte portHi portLo : byte,
       encodeAddress lookupPort rawAddr
       = Ok ([x03; lengthByte] ++ host ++ [portHi; portLo])
       /\ byte_val lengthByte = len host
       /\ 256 * byte_val portHi + byte_val portLo = port)
  /\ ((256 <= length host)%nat ->
        encodeAddress lookupPort rawAddr = Err ErrDomainTooLong).
Proof.
  intros Hs Hp Hip. unfold encodeAddress. rewrite Hs, Hp, Hip.
  pose proof (LookupPort_range _ _ _ Hp) as Hr.
  destruct (PutUint16_port port Hr) as [Hput Hval].
  split; intros Hlen.
  - destruct (Z.gtb_spec (len host) 255) as [Hgt|_]; [unfold len in Hgt; lia|].
    exists (to_byte (len host)), (to_byte (port / 256)), (to_byte port).
    rewrite Hput. split; [|split].
    + reflexivity.
    + rewrite byte_val_to_byte. apply Z.mod_small. unfold len. lia.
    + exact Hval.
  - destruct (Z.gtb_spec (len host) 255) as [_|Hle]; [reflexivity|].
    unfold len in Hle. lia.
Qed.

Lemma encodeAddress_domain_witness :
  encodeAddress builtinServices (repeat "a"%byte 255 ++ str ":domain")
  = Ok ([x03; xff] ++ repeat "a"%byte 255 ++ [x00; x35])
  /\ encodeAddress builtinServices (repeat "a"%byte 256 ++ str ":domain")
     = Err ErrDomainTooLong.
Proof.
  split.
  - destruct (proj1 (encodeAddress_domain builtinServices
                       (repeat "a"%byte 255 ++ str ":domain")
                       (repeat "a"%byte 255) (str "domain") 53
                       ltac:(vm_compute; reflexivity)
                       ltac:(vm_compute; reflexivity)
                       ltac:(vm_compute; reflexivity))
              ltac:(vm_compute; lia))
      as (lb & hi & lo & -> & Hlb & Hport).
    assert (lb = xff) as -> by (apply byte_val_inj; rewrite Hlb; reflexivity).
    assert (Hhi : byte_val hi = 0)
      by (pose proof (byte_val_range hi); pose proof (byte_val_range lo); lia).
    assert (hi = x00) as -> by (apply byte_val_inj; exact Hhi).
    assert (lo = x35) as ->
      by (apply byte_val_inj; change (byte_val x00) with 0 in Hport;
          change (byte_val x35) with 53; lia).
    reflexivity.
  - exact (proj2 (encodeAddress_domain builtinServices
                    (repeat "a"%byte 256 ++ str ":domain")
                    (repeat "a"%byte 256) (str "domain") 53
                    ltac:(vm_compute; reflexivity)
                    ltac:(vm_compute; reflexivity)
                    ltac:(vm_compute; reflexivity))
             ltac:(vm_compute; lia)).
Defined.

(** ** The worked example *)

(** C2. [WriteDatagram] with address "93.184.216.34:443" and payload
    {1,2,3} puts exactly the bytes
    00 07 00 03 01 5D B8 D8 22 01 BB 01 02 03 on the stream and reports no
    error, whatever the service database; [ReadDatagram] on exactly those
    bytes returns the address "93.184.216.34:443" and the payload {1,2,3},
    with the stream read to its end. *)
Theorem datagram_example (lookupPort : gostring -> result Z) :
  WriteDatagram lookupPort ([] : Buffer) (str "93.184.216.34:443") [x01; x02; x03]
  = ([x00; x07; x00; x03; x01; x5d; xb8; xd8; x22; x01; xbb; x01; x02; x03], None)
  /\ ReadDatagram
       [x00; x07; x00; x03; x01; x5d; xb8; xd8; x22; x01; xbb; x01; x02; x03]
     = (Ok (str "93.184.216.34:443", [x01; x02; x03]), []).
Proof. split; vm_compute; reflexivity. Qed.

(** ** IP literals have sixteen bytes *)

Lemma parseIPv4Fields_length s :
  forall prev val digLen fields out,
    net.parseIPv4Fields s prev val digLen fields = Some out ->
    (length fields <= 3)%nat -> length out = 4%nat.
Proof.
  induction s as [|c rest IH]; intros prev val digLen fields out; simpl.
  - destruct (Nat.ltb_spec (length fields) 3); [congruence|].
    intros [= <-] Hle. rewrite length_app. simpl. lia.
  - destruct (net.isDigit c).
    + destruct ((digLen =? 1) && (val =? 0)); [congruence|].
      destruct (val * 10 + byte_val c - 48 >? 255); [congruence|].
      apply IH.
    + destruct (Byte.eqb c "."); [|congruence].
      destruct (match prev with
                | Some p => match rest with [] => true | _ => Byte.eqb p "." end
                | None => true
                end); [congruence|].
      destruct (Nat.eqb_spec (length fields) 3); [congruence|].
      intros H Hle. apply IH in H; [exact H|].
      rewrite length_app. simpl. lia.
Qed.

Lemma parseIPv4_length s out :
  net.parseIPv4 s = Some out -> length out = 4%nat.
Proof.
  intros H. apply parseIPv4Fields_length in H; [exact H|simpl; lia].
Qed.

Lemma parseIPv6_loop_length fuel :
  forall ip ellipsis s ip' ellipsis' s',
    net.parseIPv6_loop fuel ip ellipsis s = Some (ip', ellipsis', s') ->
    Nat.Even (length ip) -> (length ip <= 16)%nat ->
    (length ip' <= 16)%nat.
Proof.
  induction fuel as [|fuel IH]; intros ip ellipsis s ip' ellipsis' s'.
  - cbn [net.parseIPv6_loop].
    destruct (Nat.leb_spec 16 (length ip)); [|congruence].
    intros [= <- _ _] _ Hle. exact Hle.
  - cbn [net.parseIPv6_loop].
    destruct (Nat.leb_spec 16 (length ip)) as [|Hlt].
    { intros [= <- _ _] _ Hle. exact Hle. }
    destruct (net.parseHex s 0 0) as [[[off acc] s0]|]; [|congruence].
    destruct off as [|off]; [congruence|].
    intros H Hev Hle.
    assert (Hnext : Nat.Even (length (ip ++ [to_byte (Z.shiftr acc 8); to_byte acc]))
                    /\ (length (ip ++ [to_byte (Z.shiftr acc 8); to_byte acc]) <= 16)%nat).
    { rewrite length_app. simpl length. split.
      - destruct Hev as [k Hk]. exists (S k). lia.
      - destruct Hev as [k Hk]. lia. }
    destruct Hnext as [Hev' Hle'].
    destruct (Byte.eqb (nth 0 s0 x00) "." && negb (length s0 =? 0)%nat).
    + destruct ((match ellipsis with None => true | Some _ => false end)
                && negb (length ip =? 12)%nat); [congruence|].
      destruct (Nat.ltb_spec 16 (length ip + 4)); [congruence|].
      destruct (net.parseIPv4 s) as [v4|] eqn:E4; [|congruence].
      apply parseIPv4_length in E4.
      injection H as <- _ _. rewrite length_app. lia.
    + destruct s0 as [|c s1].
      { injection H as <- _ _. exact Hle'. }
      destruct (negb (Byte.eqb c ":")); [congruence|].
      destruct s1 as [|c1 s2]; [congruence|].
      destruct (Byte.eqb c1 ":").
      * destruct ellipsis; [congruence|].
        destruct s2.
        -- injection H as <- _ _. exact Hle'.
        -- eapply IH; eassumption.
      * eapply IH; eassumption.
Qed.

Lemma expand_ellipsis_length (e : nat) (ip : list byte) :
  (length ip <= 16)%nat ->
  length (firstn e ip ++ repeat x00 (16 - length ip) ++ skipn e ip) = 16%nat.
Proof.
  intros H. rewrite !length_app, repeat_length.
  pose proof (firstn_skipn e ip) as Hfs.
  apply (f_equal (@length byte)) in Hfs. rewrite length_app in Hfs. lia.
Qed.

Lemma expandEllipsis_length ip0 e0 s1 ip :
  (length ip0 <= 16)%nat ->
  net.expandEllipsis (ip0, e0, s1) = Some ip -> length ip = 16%nat.
Proof.
  intros Hle. unfold net.expandEllipsis.
  destruct (negb (length s1 =? 0)%nat); [congruence|].
  destruct (Nat.ltb_spec (length ip0) 16).
  - destruct e0 as [e|]; [|congruence]. intros [= <-].
    apply expand_ellipsis_length. lia.
  - destruct e0; [congruence|]. intros [= <-]. lia.
Qed.

Lemma parseIPv6_length s ip : net.parseIPv6 s = Some ip -> length ip = 16%nat.
Proof.
  unfold net.parseIPv6.
  destruct (net.IndexByte s "%"); [congruence|].
  set (start := match s with
                | c0 :: c1 :: s' =>
                    if Byte.eqb c0 ":" && Byte.eqb c1 ":" then (Some 0%nat, s')
                    else (None, s)
                | _ => (None, s)
                end).
  destruct start as [ellipsis s0].
  assert (Hmain :
    match net.parseIPv6_loop 8 [] ellipsis s0 with
    | Some r => net.expandEllipsis r
    | None => None
    end = Some ip -> length ip = 16%nat).
  { destruct (net.parseIPv6_loop 8 [] ellipsis s0) as [[[ip0 e0] s1]|] eqn:El;
      [|congruence].
    apply parseIPv6_loop_length in El; [|exists 0%nat; reflexivity|simpl; lia].
    apply expandEllipsis_length. exact El. }
  destruct ellipsis as [e|]; [|exact Hmain].
  destruct s0; [|exact Hmain].
  intros [= <-]. reflexivity.
Qed.

Lemma ParseAddr_dispatch_length s ip :
  forall rest, net.ParseAddr_dispatch s rest = Some ip -> length ip = 16%nat.
Proof.
  induction rest as [|c rest IH]; simpl; [congruence|].
  destruct (Byte.eqb c ".").
  - destruct (net.parseIPv4 s) as [v4|] eqn:E4; [|simpl; congruence].
    apply parseIPv4_length in E4. intros [= <-]. simpl. lia.
  - destruct (Byte.eqb c ":"); [apply parseIPv6_length|].
    destruct (Byte.eqb c "%"); [congruence|exact IH].
Qed.

Lemma ParseIP_length s ip : net.ParseIP s = Some ip -> length ip = 16%nat.
Proof. apply ParseAddr_dispatch_length. Qed.

Lemma To4_length ip ip4 :
  length ip = 16%nat -> net.To4 ip = Some ip4 -> length ip4 = 4%nat.
Proof.
  intros Hl. unfold net.To4. rewrite Hl. simpl.
  destruct (_ && _); [|congruence].
  intros [= <-]. unfold slice. rewrite length_firstn, length_skipn. lia.
Qed.

(** ** What [encodeAddress] produces, and decoding it *)

(** The three shapes of an encoded address. *)
Lemma encodeAddress_shape lookupPort rawAddr buf :
  encodeAddress lookupPort rawAddr = Ok buf ->
  exists host portStr port,
    net.SplitHostPort rawAddr = Ok (host, portStr)
    /\ net.LookupPort lookupPort portStr = Ok port
    /\ 0 <= port <= 65535
    /\ ((exists ip ip4, net.ParseIP host = Some ip /\ net.To4 ip = Some ip4
                        /\ length ip4 = 4%nat
                        /\ buf = [x01] ++ ip4 ++ binary.PutUint16 port)
        \/ (exists ip, net.ParseIP host = Some ip /\ net.To4 ip = None
                       /\ length ip = 16%nat
                       /\ buf = [x04] ++ ip ++ binary.PutUint16 port)
        \/ (net.ParseIP host = None /\ (length host <= 255)%nat
            /\ buf = [x03; to_byte (len host)] ++ host ++ binary.PutUint16 port)).
Proof.
  unfold encodeAddress.
  destruct (net.SplitHostPort rawAddr) as [[host portStr]|e] eqn:Hs;
    [|congruence].
  destruct (net.LookupPort lookupPort portStr) as [port|e] eqn:Hp;
    [|congruence].
  pose proof (LookupPort_range _ _ _ Hp) as Hr.
  assert (Hu : uint16 port = port) by (apply Z.mod_small; lia).
  rewrite Hu. intros H. exists host, portStr, port.
  repeat (split; [first [reflexivity | assumption | lia]|]).
  destruct (net.ParseIP host) as [ip|] eqn:Hip.
  - pose proof (ParseIP_length _ _ Hip) as Hl.
    destruct (net.To4 ip) as [ip4|] eqn:H4.
    + left. exists ip, ip4. injection H as <-.
      repeat split; try reflexivity; try assumption.
      eapply To4_length; eassumption.
    + right; left. exists ip. injection H as <-.
      repeat split; try reflexivity; assumption.
  - right; right.
    destruct (Z.gtb_spec (len host) 255) as [|Hle]; [congruence|].
    injection H as <-. unfold len in Hle.
    repeat split; try reflexivity. lia.
Qed.

Lemma encodeAddress_length lookupPort rawAddr buf :
  encodeAddress lookupPort rawAddr = Ok buf -> 3 <= len buf <= 259.
Proof.
  intros H. apply encodeAddress_shape in H.
  destruct H as (host & portStr & port & _ & _ & _ & H).
  unfold len.
  destruct H as [(ip & ip4 & _ & _ & Hl & ->)|[(ip & _ & _ & Hl & ->)|(_ & Hl & ->)]];
    rewrite !length_app, PutUint16_length; simpl length; lia.
Qed.

Lemma ReadFull_exact (n : nat) (b rest : list byte) :
  length b = n -> io.ReadFull n (b ++ rest) = (Ok b, rest).
Proof. intros <-. apply ReadFull_app. Qed.

(** Decoding an address laid out as [encodeAddress] lays it out. *)
Lemma decodeAddress_IPv4 (ip4 : list byte) (port : Z) (rest : Reader) :
  length ip4 = 4%nat -> 0 <= port <= 65535 ->
  decodeAddress ([x01] ++ ip4 ++ binary.PutUint16 port ++ rest)
  = (Ok (net.JoinHostPort (net.IP_String ip4) (strconv.Sprint port)), rest).
Proof.
  intros Hl Hp. unfold decodeAddress, bind.
  rewrite (ReadFull_exact 1 [x01]) by reflexivity. cbn [nth].
  rewrite (ReadFull_exact net.IPv4len ip4) by exact Hl.
  rewrite (ReadFull_exact 2 (binary.PutUint16 port)) by reflexivity.
  rewrite Uint16_PutUint16, Z.mod_small by lia. reflexivity.
Qed.

Lemma decodeAddress_IPv6 (ip : list byte) (port : Z) (rest : Reader) :
  length ip = 16%nat -> 0 <= port <= 65535 ->
  decodeAddress ([x04] ++ ip ++ binary.PutUint16 port ++ rest)
  = (Ok (net.JoinHostPort (net.IP_String ip) (strconv.Sprint port)), rest).
Proof.
  intros Hl Hp. unfold decodeAddress, bind.
  rewrite (ReadFull_exact 1 [x04]) by reflexivity. cbn [nth].
  rewrite (ReadFull_exact net.IPv6len ip) by exact Hl.
  rewrite (ReadFull_exact 2 (binary.PutUint16 port)) by reflexivity.
  rewrite Uint16_PutUint16, Z.mod_small by lia. reflexivity.
Qed.

Lemma decodeAddress_domain (host : gostring) (port : Z) (rest : Reader) :
  (length host <= 255)%nat -> 0 <= port <= 65535 ->
  decodeAddress ([x03; to_byte (len host)] ++ host ++ binary.PutUint16 port ++ rest)
  = (Ok (net.JoinHostPort host (strconv.Sprint port)), rest).
Proof.
  intros Hl Hp. unfold decodeAddress, bind.
  change ([x03; to_byte (len host)] ++ host ++ binary.PutUint16 port ++ rest)
    with ([x03] ++ [to_byte (len host)] ++ host ++ binary.PutUint16 port ++ rest).
  rewrite (ReadFull_exact 1 [x03]) by reflexivity. cbn [nth].
  rewrite (ReadFull_exact 1 [to_byte (len host)]) by reflexivity. cbn [nth].
  rewrite byte_val_to_byte, Z.mod_small by (unfold len; lia).
  rewrite (ReadFull_exact (Z.to_nat (len host)) host)
    by (unfold len; rewrite Nat2Z.id; reflexivity).
  rewrite (ReadFull_exact 2 (binary.PutUint16 port)) by reflexivity.
  rewrite Uint16_PutUint16, Z.mod_small by lia. reflexivity.
Qed.

(** Every encoded address decodes, and decoding reads all of it. *)
Lemma decodeAddress_encodeAddress lookupPort rawAddr buf :
  encodeAddress lookupPort rawAddr = Ok buf ->
  exists addr, forall rest, decodeAddress (buf ++ rest) = (Ok addr, rest).
Proof.
  intros H. apply encodeAddress_shape in H.
  destruct H as (host & portStr & port & _ & _ & Hr & H).
  destruct H as [(ip & ip4 & _ & _ & Hl & ->)|[(ip & _ & _ & Hl & ->)|(_ & Hl & ->)]];
    eexists; intros rest; rewrite <- !app_assoc.
  - apply decodeAddress_IPv4; assumption.
  - apply decodeAddress_IPv6; assumption.
  - apply decodeAddress_domain; assumption.
Qed.

(** ** Writing a frame, and reading it back *)

(** [WriteDatagram] on a healthy stream: the frame that is appended. *)
Lemma WriteDatagram_Buffer lookupPort (w : Buffer) addr payload addrBuf :
  encodeAddress lookupPort addr = Ok addrBuf ->
  len payload <= maxUoTPayload ->
  WriteDatagram lookupPort w addr payload
  = (w ++ binary.PutUint16 (len addrBuf)
       ++ binary.PutUint16 (uint16 (len payload)) ++ addrBuf ++ payload,
     None).
Proof.
  intros He Hp. pose proof (encodeAddress_length _ _ _ He) as Hl.
  unfold WriteDatagram. rewrite He. cbv zeta.
  destruct (Z.eqb_spec (len addrBuf) 0); [lia|].
  destruct (Z.gtb_spec (len addrBuf) maxUoTPayload) as [Hgt|_];
    [unfold maxUoTPayload in Hgt; lia|].
  destruct (Z.gtb_spec (len payload) maxUoTPayload); [lia|].
  cbn [orb]. unfold Write, Buffer_Writer.
  unfold uint16 at 1. rewrite (Z.mod_small (len addrBuf)) by lia.
  rewrite <- !app_assoc. reflexivity.
Qed.

(** [WriteDatagram] refuses a payload of more than [maxUoTPayload] bytes
    and writes nothing. *)
Lemma WriteDatagram_too_large lookupPort {W} `{Writer W} (w : W)
    addr payload addrBuf :
  encodeAddress lookupPort addr = Ok addrBuf ->
  maxUoTPayload < len payload ->
  WriteDatagram lookupPort w addr payload
  = (w, Some (ErrPayloadTooLarge (len payload))).
Proof.
  intros He Hp. pose proof (encodeAddress_length _ _ _ He) as Hl.
  unfold WriteDatagram. rewrite He. cbv zeta.
  destruct (Z.eqb_spec (len addrBuf) 0); [lia|].
  destruct (Z.gtb_spec (len addrBuf) maxUoTPayload) as [Hgt|_];
    [unfold maxUoTPayload in Hgt; lia|].
  destruct (Z.gtb_spec (len payload) maxUoTPayload); [reflexivity|lia].
Qed.

(** [ReadDatagram] on a header, an address that decodes, and whatever
    follows: what remains is the read of the payload. *)
Lemma ReadDatagram_frame (addrBuf : list byte) (addr : gostring)
    (payloadLen : Z) (rest : Reader) :
  0 < len addrBuf <= 65535 ->
  0 <= payloadLen <= 65535 ->
  fst (decodeAddress addrBuf) = Ok addr ->
  ReadDatagram (binary.PutUint16 (len addrBuf)
                  ++ binary.PutUint16 payloadLen ++ addrBuf ++ rest)
  = match io.ReadFull (Z.to_nat payloadLen) rest with
    | (Err e, r') => (Err e, r')
    | (Ok payload, r') => (Ok (addr, payload), r')
    end.
Proof.
  intros Ha Hp Hd.
  change (binary.PutUint16 (len addrBuf)
            ++ binary.PutUint16 payloadLen ++ addrBuf ++ rest)
    with (to_byte (Z.shiftr (len addrBuf) 8) :: to_byte (len addrBuf)
            :: to_byte (Z.shiftr payloadLen 8) :: to_byte payloadLen
            :: addrBuf ++ rest).
  rewrite ReadDatagram_header. cbv zeta.
  rewrite payloadLen_check_false.
  change [to_byte (Z.shiftr (len addrBuf) 8); to_byte (len addrBuf)]
    with (binary.PutUint16 (len addrBuf)).
  change [to_byte (Z.shiftr payloadLen 8); to_byte payloadLen]
    with (binary.PutUint16 payloadLen).
  rewrite !Uint16_PutUint16, !Z.mod_small by lia.
  destruct (Z.leb_spec (len addrBuf) 0); [lia|].
  destruct (Z.gtb_spec (len addrBuf) maxUoTPayload) as [Hgt|_];
    [unfold maxUoTPayload in Hgt; lia|].
  cbn [orb].
  rewrite (ReadFull_exact (Z.to_nat (len addrBuf)) addrBuf)
    by (unfold len; rewrite Nat2Z.id; reflexivity).
  destruct (decodeAddress addrBuf) as [[a|e] r0]; simpl in Hd; [|congruence].
  injection Hd as ->. reflexivity.
Qed.

(** C1, where the code departs from the claim.  A payload of exactly 65536
    bytes passes the size test of [WriteDatagram], is written in full, but
    is announced by a length field of 0 (65536 does not fit in sixteen
    bits); [ReadDatagram] on the bytes written returns an empty payload and
    leaves the 65536 payload bytes on the stream. *)
Theorem payload_65536_not_read_back
    (lookupPort : gostring -> result Z)
    (addr : gostring) (addrBuf payload : list byte) :
  encodeAddress lookupPort addr = Ok addrBuf ->
  len payload = maxUoTPayload ->
  exists (frame : Buffer) (addr' : gostring),
    WriteDatagram lookupPort ([] : Buffer) addr payload = (frame, None)
    /\ ReadDatagram frame = (Ok (addr', []), payload)
    /\ payload <> [].
Proof.
  intros He Hp.
  pose proof (encodeAddress_length _ _ _ He) as Hl.
  destruct (decodeAddress_encodeAddress _ _ _ He) as [addr' Hd].
  specialize (Hd []). rewrite app_nil_r in Hd.
  eexists; exists addr'. split; [|split].
  - apply WriteDatagram_Buffer; [exact He|lia].
  - rewrite Hp. change (uint16 maxUoTPayload) with 0. cbn [app].
    rewrite (ReadDatagram_frame addrBuf addr' 0 payload);
      [reflexivity|lia|lia|rewrite Hd; reflexivity].
  - intros ->. discriminate Hp.
Qed.

Lemma payload_65536_not_read_back_witness :
  exists (frame : Buffer) (addr' : gostring),
    WriteDatagram builtinServices ([] : Buffer) (str "93.184.216.34:443")
      (repeat x00 (Z.to_nat 65536)) = (frame, None)
    /\ ReadDatagram frame = (Ok (addr', []), repeat x00 (Z.to_nat 65536))
    /\ repeat x00 (Z.to_nat 65536) <> [].
Proof.
  apply (payload_65536_not_read_back builtinServices (str "93.184.216.34:443")
           [x01; x5d; xb8; xd8; x22; x01; xbb]).
  - reflexivity.
  - unfold len. rewrite repeat_length. apply Z2Nat.id. discriminate.
Defined.

(** ** Ports: decimal text and back *)

Lemma digit_decimal (d : Z) :
  0 <= d <= 9 ->
  net.isDigit (strconv.digit d) = true /\ byte_val (strconv.digit d) = 48 + d.
Proof.
  intros H.
  assert (Hd : d = 0 \/ d = 1 \/ d = 2 \/ d = 3 \/ d = 4 \/ d = 5 \/ d = 6
               \/ d = 7 \/ d = 8 \/ d = 9) by lia.
  repeat (destruct Hd as [->|Hd]; [split; reflexivity|]).
  subst d. split; reflexivity.
Qed.

Lemma parsePort_loop_digit (d n : Z) (rest : gostring) :
  0 <= d <= 9 -> 0 <= n < 100000 ->
  net.parsePort_loop (strconv.digit d :: rest) n
  = net.parsePort_loop rest (n * 10 + d).
Proof.
  intros Hd Hn. destruct (digit_decimal d Hd) as [Hi Hv].
  cbn [net.parsePort_loop]. rewrite Hi, Hv. cbv zeta.
  destruct (Z.geb_spec n 1073741824); [lia|].
  unfold uint32. rewrite (Z.mod_small (n * 10)) by lia.
  replace (48 + d - 48) with d by lia.
  rewrite (Z.mod_small (n * 10 + d)) by lia.
  destruct (Z.ltb_spec (n * 10 + d) (n * 10)); [lia|].
  destruct (Z.gtb_spec (n * 10 + d) 4294967295); [lia|].
  reflexivity.
Qed.

Lemma parsePort_loop_formatBits (fuel : nat) :
  forall u acc,
    (fuel <= 4)%nat -> 0 <= u < 10 ^ Z.of_nat (S fuel) ->
    net.parsePort_loop (strconv.formatBits fuel u acc) 0
    = net.parsePort_loop acc u.
Proof.
  induction fuel as [|fuel IH]; intros u acc Hf Hu.
  - cbn [strconv.formatBits]. change (10 ^ Z.of_nat 1) with 10 in Hu.
    rewrite parsePort_loop_digit by lia. f_equal.
  - cbn [strconv.formatBits].
    assert (Hpow : 10 ^ Z.of_nat (S (S fuel)) = 10 * 10 ^ Z.of_nat (S fuel))
      by (rewrite (Nat2Z.inj_succ (S fuel)), Z.pow_succ_r by lia; reflexivity).
    assert (Hb : 10 ^ Z.of_nat (S fuel) <= 10 ^ 4).
    { apply Z.pow_le_mono_r; lia. }
    change (10 ^ 4) with 10000 in Hb.
    destruct (Z.ltb_spec u 10).
    + rewrite parsePort_loop_digit by lia. f_equal.
    + pose proof (Z.div_mod u 10 ltac:(lia)) as Hdm.
      pose proof (Z.mod_pos_bound u 10 ltac:(lia)) as Hm.
      rewrite IH by lia.
      rewrite parsePort_loop_digit by lia. f_equal. lia.
Qed.

Lemma formatBits_digits (fuel : nat) :
  forall u acc,
    0 <= u < 10 ^ Z.of_nat (S fuel) ->
    Forall (fun c => net.isDigit c = true) acc ->
    Forall (fun c => net.isDigit c = true) (strconv.formatBits fuel u acc)
    /\ strconv.formatBits fuel u acc <> [].
Proof.
  induction fuel as [|fuel IH]; intros u acc Hu Hacc; cbn [strconv.formatBits].
  - change (10 ^ Z.of_nat 1) with 10 in Hu.
    split; [|discriminate]. constructor; [|exact Hacc].
    apply digit_decimal. lia.
  - assert (Hpow : 10 ^ Z.of_nat (S (S fuel)) = 10 * 10 ^ Z.of_nat (S fuel))
      by (rewrite (Nat2Z.inj_succ (S fuel)), Z.pow_succ_r by lia; reflexivity).
    destruct (Z.ltb_spec u 10).
    + split; [|discriminate]. constructor; [|exact Hacc].
      apply digit_decimal. lia.
    + pose proof (Z.div_mod u 10 ltac:(lia)) as Hdm.
      pose proof (Z.mod_pos_bound u 10 ltac:(lia)) as Hm.
      apply IH; [lia|]. constructor; [|exact Hacc].
      apply digit_decimal. lia.
Qed.

Lemma Sprint_digits (v : Z) :
  0 <= v <= 65535 ->
  Forall (fun c => net.isDigit c = true) (strconv.Sprint v)
  /\ strconv.Sprint v <> [].
Proof.
  intros H. apply formatBits_digits; [|constructor].
  change (10 ^ Z.of_nat 5) with 100000. lia.
Qed.

Lemma isDigit_neq (c x : byte) :
  net.isDigit c = true -> net.isDigit x = false -> Byte.eqb c x = false.
Proof.
  intros Hc Hx. destruct (Byte.eqb c x) eqn:E; [|reflexivity].
  apply Byte.byte_dec_bl in E. congruence.
Qed.

(** [net.parsePort] reads back the decimal text of a port. *)
Lemma parsePort_Sprint (v : Z) :
  0 <= v <= 65535 -> net.parsePort (strconv.Sprint v) = (v, false).
Proof.
  intros H. destruct (Sprint_digits v H) as [Hd Hne].
  unfold net.parsePort.
  destruct (strconv.Sprint v) as [|c rest] eqn:E; [congruence|].
  inversion Hd as [|? ? Hc _]; subst.
  rewrite (isDigit_neq c "-" Hc eq_refl), (isDigit_neq c "+" Hc eq_refl).
  cbn [orb negb andb]. rewrite <- E. unfold strconv.Sprint.
  rewrite parsePort_loop_formatBits;
    [|lia|change (10 ^ Z.of_nat 5) with 100000; lia].
  cbn [net.parsePort_loop].
  destruct (Z.geb_spec v 1073741824); [lia|]. reflexivity.
Qed.

Lemma LookupPort_Sprint lookupPort (v : Z) :
  0 <= v <= 65535 -> net.LookupPort lookupPort (strconv.Sprint v) = Ok v.
Proof.
  intros H. unfold net.LookupPort. rewrite parsePort_Sprint by exact H.
  destruct (Z.gtb_spec 0 v); [lia|].
  destruct (Z.gtb_spec v 65535); [lia|]. reflexivity.
Qed.

(** ** Splitting and joining host and port *)

Lemma IndexByte_None s c : net.IndexByte s c = None <-> ~ In c s.
Proof.
  induction s as [|b s IH]; simpl.
  - split; [intros _ []|reflexivity].
  - destruct (Byte.eqb b c) eqn:E.
    + apply Byte.byte_dec_bl in E. split; [discriminate|]. intros H.
      exfalso. apply H. left. exact E.
    + apply Byte.eqb_false in E.
      destruct (net.IndexByte s c); simpl.
      * split; [discriminate|]. intros H. exfalso. apply H. right.
        apply Decidable.not_not; [|intros Hn; apply IH in Hn; discriminate].
        destruct (in_dec Byte.byte_eq_dec c s); [left|right]; assumption.
      * split; [|reflexivity]. intros _ [H|H]; [congruence|].
        revert H. apply IH. reflexivity.
Qed.

Lemma contains_false s c : net.contains s c = false <-> ~ In c s.
Proof.
  unfold net.contains. rewrite <- IndexByte_None.
  destruct (net.IndexByte s c); split; congruence.
Qed.

Lemma contains_true s c : net.contains s c = true <-> In c s.
Proof.
  destruct (net.contains s c) eqn:E.
  - split; [|reflexivity]. intros _.
    destruct (in_dec Byte.byte_eq_dec c s) as [H|H]; [exact H|].
    apply contains_false in H. congruence.
  - apply contains_false in E. split; [discriminate|contradiction].
Qed.

Lemma IndexByte_app s t c :
  ~ In c s -> net.IndexByte (s ++ c :: t) c = Some (length s).
Proof.
  induction s as [|b s IH]; intros H; simpl.
  - rewrite (Byte.byte_dec_lb eq_refl). reflexivity.
  - destruct (Byte.eqb b c) eqn:E.
    + apply Byte.byte_dec_bl in E. exfalso. apply H. left. exact E.
    + rewrite IH; [reflexivity|]. intros Hn. apply H. right. exact Hn.
Qed.

Lemma LastIndexByte_None s c : ~ In c s -> net.LastIndexByte s c = None.
Proof.
  induction s as [|b s IH]; intros H; simpl; [reflexivity|].
  rewrite IH by (intros Hn; apply H; right; exact Hn).
  destruct (Byte.eqb b c) eqn:E; [|reflexivity].
  apply Byte.byte_dec_bl in E. exfalso. apply H. left. exact E.
Qed.

Lemma LastIndexByte_app s t c :
  ~ In c t -> net.LastIndexByte (s ++ c :: t) c = Some (length s).
Proof.
  intros H. induction s as [|b s IH]; simpl.
  - rewrite LastIndexByte_None by exact H.
    rewrite (Byte.byte_dec_lb eq_refl). reflexivity.
  - rewrite IH. reflexivity.
Qed.

Lemma IndexByte_Some s c i :
  net.IndexByte s c = Some i ->
  ~ In c (firstn i s) /\ exists t, s = firstn i s ++ c :: t.
Proof.
  revert i. induction s as [|b s IH]; intros i; simpl; [discriminate|].
  destruct (Byte.eqb b c) eqn:E.
  - apply Byte.byte_dec_bl in E. intros [= <-]. simpl.
    split; [intros []|]. exists s. congruence.
  - apply Byte.eqb_false in E.
    destruct (net.IndexByte s c) as [j|]; [|discriminate].
    intros [= <-]. destruct (IH j eq_refl) as [Hn [t Ht]]. simpl. split.
    + intros [H|H]; [congruence|contradiction].
    + exists t. f_equal. exact Ht.
Qed.

Lemma In_of_firstn {A} (x : A) (n : nat) (l : list A) :
  In x (firstn n l) -> In x l.
Proof.
  intros H. rewrite <- (firstn_skipn n l). apply in_or_app. left. exact H.
Qed.

(** The host that [net.SplitHostPort] returns holds no bracket. *)
Lemma SplitHostPort_no_brackets hostport host port :
  net.SplitHostPort hostport = Ok (host, port) ->
  ~ In "["%byte host /\ ~ In "]"%byte host.
Proof.
  unfold net.SplitHostPort.
  destruct (net.LastIndexByte hostport ":") as [i|]; [|discriminate].
  cbv zeta.
  destruct (Byte.eqb (nth 0 hostport x00) "[") eqn:E0.
  - destruct (net.IndexByte hostport "]") as [end_|] eqn:Ee; [|discriminate].
    destruct (S end_ =? length hostport)%nat; [discriminate|].
    destruct (S end_ =? i)%nat.
    + destruct (net.contains (skipn 1 hostport) "[") eqn:C1; [discriminate|].
      destruct (net.contains (skipn (S end_) hostport) "]"); [discriminate|].
      intros [= <- _]. apply contains_false in C1.
      apply IndexByte_Some in Ee. destruct Ee as [Hn _].
      destruct hostport as [|b hp]; [discriminate|].
      destruct end_ as [|e].
      { unfold slice. simpl. split; intros []. }
      unfold slice. simpl in *. rewrite Nat.sub_0_r. split.
      * intros H. apply C1. eapply In_of_firstn. exact H.
      * intros H. apply Hn. right. exact H.
    + destruct (Byte.eqb (nth (S end_) hostport x00) ":"); discriminate.
  - destruct (net.contains (firstn i hostport) ":"); [discriminate|].
    rewrite !skipn_O.
    destruct (net.contains hostport "[") eqn:C1; [discriminate|].
    destruct (net.contains hostport "]") eqn:C2; [discriminate|].
    intros [= <- _]. apply contains_false in C1, C2.
    split; intros H; [apply C1|apply C2]; eapply In_of_firstn; exact H.
Qed.

Lemma skipn_exact {A} (a b : list A) (n : nat) :
  n = length a -> skipn n (a ++ b) = b.
Proof.
  intros ->. rewrite skipn_app, skipn_all, Nat.sub_diag. reflexivity.
Qed.

Lemma firstn_exact {A} (a b : list A) (n : nat) :
  n = length a -> firstn n (a ++ b) = a.
Proof.
  intros ->. rewrite firstn_app, firstn_all, Nat.sub_diag, firstn_O.
  apply app_nil_r.
Qed.

(** [net.SplitHostPort] undoes [net.JoinHostPort] when the host holds no
    bracket and the port neither bracket nor colon. *)
Lemma SplitHostPort_JoinHostPort (host port : gostring) :
  ~ In "["%byte host -> ~ In "]"%byte host ->
  ~ In ":"%byte port -> ~ In "["%byte port -> ~ In "]"%byte port ->
  net.SplitHostPort (net.JoinHostPort host port) = Ok (host, port).
Proof.
  intros Hh1 Hh2 Hp0 Hp1 Hp2. unfold net.JoinHostPort.
  destruct (net.contains host ":") eqn:Hc.
  - change (str "[" ++ host ++ str "]:" ++ port)
      with ("["%byte :: host ++ "]"%byte :: ":"%byte :: port).
    set (s := "["%byte :: host ++ "]"%byte :: ":"%byte :: port).
    assert (Hs1 : s = ("["%byte :: host ++ ["]"%byte]) ++ ":"%byte :: port)
      by (unfold s; simpl; rewrite <- app_assoc; reflexivity).
    assert (Hs2 : s = ("["%byte :: host) ++ "]"%byte :: ":"%byte :: port)
      by reflexivity.
    assert (Hlen : length s = (length host + 3 + length port)%nat)
      by (unfold s; simpl; rewrite length_app; simpl; lia).
    unfold net.SplitHostPort.
    rewrite Hs1 at 1. rewrite LastIndexByte_app by exact Hp0.
    cbv zeta. change (nth 0 s x00) with "["%byte.
    change (Byte.eqb "[" "[") with true. cbv iota.
    rewrite Hs2 at 1. rewrite IndexByte_app
      by (intros [H|H]; [discriminate|contradiction]).
    rewrite Hlen.
    replace (length ("["%byte :: host ++ ["]"%byte])) with (S (S (length host)))
      by (simpl; rewrite length_app; simpl; lia).
    change (length ("["%byte :: host)) with (S (length host)).
    destruct (Nat.eqb_spec (S (S (length host))) (length host + 3 + length port));
      [lia|].
    rewrite Nat.eqb_refl.
    assert (C1 : net.contains (skipn 1 s) "[" = false).
    { apply contains_false. unfold s. simpl. intros H.
      apply in_app_or in H. destruct H as [H|[H|[H|H]]];
        [contradiction|discriminate|discriminate|contradiction]. }
    assert (C2 : net.contains (skipn (S (S (length host))) s) "]" = false).
    { rewrite Hs1, skipn_exact
        by (simpl; rewrite length_app; simpl; lia).
      apply contains_false. intros [H|H]; [discriminate|contradiction]. }
    rewrite C1, C2. f_equal. f_equal.
    + unfold slice, s. simpl. rewrite Nat.sub_0_r.
      apply firstn_exact. reflexivity.
    + rewrite Hs1.
      replace (("["%byte :: host ++ ["]"%byte]) ++ ":"%byte :: port)
        with (("["%byte :: host ++ ["]"%byte; ":"%byte]) ++ port)
        by (simpl; rewrite <- !app_assoc; reflexivity).
      apply skipn_exact. simpl. rewrite length_app. simpl. lia.
  - assert (Hc' : net.contains host ":" = false) by exact Hc.
    apply contains_false in Hc.
    change (host ++ str ":" ++ port) with (host ++ ":"%byte :: port).
    assert (H0 : Byte.eqb (nth 0 (host ++ ":"%byte :: port) x00) "[" = false).
    { destruct (Byte.eqb (nth 0 (host ++ ":"%byte :: port) x00) "[") eqn:E;
        [|reflexivity].
      apply Byte.byte_dec_bl in E. exfalso.
      destruct host as [|b host]; [discriminate|].
      simpl in E. apply Hh1. left. exact E. }
    assert (C1 : net.contains (host ++ ":"%byte :: port) "[" = false).
    { apply contains_false. intros H. apply in_app_or in H.
      destruct H as [H|[H|H]]; [contradiction|discriminate|contradiction]. }
    assert (C2 : net.contains (host ++ ":"%byte :: port) "]" = false).
    { apply contains_false. intros H. apply in_app_or in H.
      destruct H as [H|[H|H]]; [contradiction|discriminate|contradiction]. }
    unfold net.SplitHostPort.
    rewrite LastIndexByte_app by exact Hp0. cbv zeta.
    rewrite H0, !(firstn_exact host (":"%byte :: port)) by reflexivity.
    rewrite Hc', !skipn_O, C1, C2. f_equal. f_equal.
    replace (host ++ ":"%byte :: port) with ((host ++ [":"%byte]) ++ port)
      by (rewrite <- app_assoc; reflexivity).
    apply skipn_exact. rewrite length_app. simpl. lia.
Qed.

(** ** IPv4 literals: dotted text and back *)

Lemma appendDecimal_app (acc : gostring) (x : Z) :
  net.appendDecimal acc x = acc ++ net.appendDecimal [] x.
Proof.
  unfold net.appendDecimal.
  destruct (x >=? 100); destruct (x >=? 10); simpl;
    rewrite <- ?app_assoc; reflexivity.
Qed.

Lemma string4_bytes (a b c d : byte) :
  net.string4 [a; b; c; d]
  = net.appendDecimal [] (byte_val a) ++ "."%byte
      :: net.appendDecimal [] (byte_val b) ++ "."%byte
      :: net.appendDecimal [] (byte_val c) ++ "."%byte
      :: net.appendDecimal [] (byte_val d).
Proof.
  unfold net.string4. cbn [nth].
  rewrite (appendDecimal_app (_ ++ _) (byte_val d)).
  rewrite (appendDecimal_app (_ ++ _) (byte_val c)).
  rewrite (appendDecimal_app (_ ++ _) (byte_val b)).
  change (str ".") with ["."%byte].
  rewrite <- !app_assoc. reflexivity.
Qed.

Lemma appendDecimal_digits (b : byte) :
  Forall (fun c => net.isDigit c = true) (net.appendDecimal [] (byte_val b)).
Proof. destruct b; vm_compute; repeat constructor. Qed.

(** One step of [netip.parseIPv4Fields] on a digit, and on a dot. *)
Lemma parseIPv4Fields_digit c rest prev val digLen fields :
  net.isDigit c = true ->
  (digLen =? 1) && (val =? 0) = false ->
  (val * 10 + byte_val c - 48 >? 255) = false ->
  net.parseIPv4Fields (c :: rest) prev val digLen fields
  = net.parseIPv4Fields rest (Some c) (val * 10 + byte_val c - 48)
      (digLen + 1) fields.
Proof.
  intros H1 H2 H3. cbn [net.parseIPv4Fields]. rewrite H1, H2, H3. reflexivity.
Qed.

Lemma parseIPv4Fields_dot c rest p val digLen fields :
  (length fields =? 3)%nat = false ->
  Byte.eqb p "." = false ->
  net.parseIPv4Fields ("."%byte :: c :: rest) (Some p) val digLen fields
  = net.parseIPv4Fields (c :: rest) (Some "."%byte) 0 0 (fields ++ [to_byte val]).
Proof.
  intros H1 H2. cbn [net.parseIPv4Fields].
  change (net.isDigit ".") with false. change (Byte.eqb "." ".") with true.
  cbv iota. rewrite H2, H1. reflexivity.
Qed.

Ltac eval_appendDecimal :=
  repeat match goal with
  | |- context [net.appendDecimal [] (byte_val ?b)] =>
      let t := eval vm_compute in (net.appendDecimal [] (byte_val b)) in
      change (net.appendDecimal [] (byte_val b)) with t
  end.

(** One octet followed by a dot, and the last octet. *)
Lemma parseIPv4Fields_octet_dot (b : byte) :
  forall rest prev fields,
    rest <> [] ->
    (length fields < 3)%nat ->
    net.parseIPv4Fields (net.appendDecimal [] (byte_val b) ++ "."%byte :: rest)
      prev 0 0 fields
    = net.parseIPv4Fields rest (Some "."%byte) 0 0 (fields ++ [b]).
Proof.
  intros [|c rest] prev fields Hne Hl; [congruence|].
  assert (E : (length fields =? 3)%nat = false) by (apply Nat.eqb_neq; lia).
  destruct b; eval_appendDecimal; cbn [app];
    repeat (rewrite parseIPv4Fields_digit by (vm_compute; reflexivity);
            cbv beta iota);
    rewrite parseIPv4Fields_dot by (exact E || reflexivity); reflexivity.
Qed.

Lemma parseIPv4Fields_last_octet (b : byte) :
  forall prev fields,
    length fields = 3%nat ->
    net.parseIPv4Fields (net.appendDecimal [] (byte_val b)) prev 0 0 fields
    = Some (fields ++ [b]).
Proof.
  intros prev fields Hl.
  assert (E : (length fields <? 3)%nat = false) by (apply Nat.ltb_ge; lia).
  destruct b; eval_appendDecimal;
    repeat (rewrite parseIPv4Fields_digit by (vm_compute; reflexivity);
            cbv beta iota);
    cbn [net.parseIPv4Fields]; rewrite E; reflexivity.
Qed.

Lemma appendDecimal_head (b : byte) :
  exists c tl, net.appendDecimal [] (byte_val b) = c :: tl
               /\ net.isDigit c = true.
Proof. destruct b; eval_appendDecimal; do 2 eexists; split; reflexivity. Qed.

(** [netip.ParseAddr] takes a text that starts with an octet and a dot
    for an IPv4 literal. *)
Lemma ParseAddr_dispatch_octet s (b : byte) rest :
  net.ParseAddr_dispatch s (net.appendDecimal [] (byte_val b) ++ "."%byte :: rest)
  = option_map (fun v4 => repeat x00 10 ++ [xff; xff] ++ v4) (net.parseIPv4 s).
Proof. destruct b; reflexivity. Qed.

Lemma appendDecimal_app_nonempty (b : byte) (rest : gostring) :
  net.appendDecimal [] (byte_val b) ++ rest <> [].
Proof.
  destruct (appendDecimal_head b) as (c & tl & -> & _). discriminate.
Qed.

Lemma appendDecimal_nonempty (b : byte) :
  net.appendDecimal [] (byte_val b) <> [].
Proof.
  destruct (appendDecimal_head b) as (c & tl & -> & _). discriminate.
Qed.

Lemma ParseIP_string4 (a b c d : byte) :
  net.ParseIP (net.string4 [a; b; c; d])
  = Some (repeat x00 10 ++ [xff; xff] ++ [a; b; c; d]).
Proof.
  unfold net.ParseIP. rewrite string4_bytes at 2.
  rewrite ParseAddr_dispatch_octet. unfold net.parseIPv4.
  rewrite string4_bytes.
  rewrite !parseIPv4Fields_octet_dot
    by (first [apply appendDecimal_app_nonempty
              | apply appendDecimal_nonempty | simpl; lia]).
  rewrite parseIPv4Fields_last_octet by reflexivity.
  reflexivity.
Qed.

Lemma string4_chars (a b c d : byte) :
  Forall (fun x => net.isDigit x = true \/ x = "."%byte) (net.string4 [a; b; c; d]).
Proof.
  rewrite string4_bytes.
  assert (Hd : forall x, Forall (fun x => net.isDigit x = true \/ x = "."%byte)
                           (net.appendDecimal [] (byte_val x))).
  { intros x. eapply Forall_impl; [|apply appendDecimal_digits].
    intros y Hy. left. exact Hy. }
  repeat (apply Forall_app; split; [apply Hd|]; constructor; [right; reflexivity|]).
  apply Hd.
Qed.

(** ** IPv6 literals: hexadecimal groups *)

Lemma hexdigit_facts (d : Z) :
  0 <= d <= 15 ->
  net.hexVal (strconv.digit d) = Some d
  /\ Byte.eqb (strconv.digit d) ":" = false
  /\ Byte.eqb (strconv.digit d) "." = false
  /\ Byte.eqb (strconv.digit d) "%" = false
  /\ strconv.digit d <> "["%byte /\ strconv.digit d <> "]"%byte.
Proof.
  intros H.
  assert (Hd : d = 0 \/ d = 1 \/ d = 2 \/ d = 3 \/ d = 4 \/ d = 5 \/ d = 6
               \/ d = 7 \/ d = 8 \/ d = 9 \/ d = 10 \/ d = 11 \/ d = 12
               \/ d = 13 \/ d = 14 \/ d = 15) by lia.
  repeat (destruct Hd as [->|Hd];
          [repeat split; solve [reflexivity | discriminate]|]).
  subst d. repeat split; solve [reflexivity | discriminate].
Qed.

Lemma hexValue_ge (ds : list Z) :
  forall acc, 0 <= acc -> Forall (fun d => 0 <= d <= 15) ds ->
    acc <= hexValue ds acc.
Proof.
  induction ds as [|d ds IH]; intros acc Ha Hd; simpl; [lia|].
  inversion Hd; subst. specialize (IH (acc * 16 + d) ltac:(lia) H2). lia.
Qed.

Lemma land_15 (a : Z) : Z.land a 15 = a mod 16.
Proof. change 15 with (Z.ones 4). rewrite Z.land_ones by lia. reflexivity. Qed.

(** The digits [netip.appendHex] writes for a group. *)
Lemma appendHex_digits (acc : gostring) (x : Z) :
  0 <= x <= 65535 ->
  exists ds,
    net.appendHex acc x = acc ++ map strconv.digit ds
    /\ Forall (fun d => 0 <= d <= 15) ds
    /\ (1 <= length ds <= 4)%nat
    /\ hexValue ds 0 = x.
Proof.
  intros Hx. unfold net.appendHex.
  rewrite !Z.shiftr_div_pow2 by lia.
  change (2 ^ 12) with 4096. change (2 ^ 8) with 256. change (2 ^ 4) with 16.
  rewrite !land_15.
  pose proof (Z.mod_pos_bound x 16 ltac:(lia)).
  pose proof (Z.mod_pos_bound (x / 16) 16 ltac:(lia)).
  pose proof (Z.mod_pos_bound (x / 256) 16 ltac:(lia)).
  assert (0 <= x / 4096 <= 15).
  { split; [apply Z.div_pos; lia|].
    assert (x / 4096 < 16) by (apply Z.div_lt_upper_bound; lia). lia. }
  destruct (Z.geb_spec x 4096); [|destruct (Z.geb_spec x 256);
                                  [|destruct (Z.geb_spec x 16)]].
  - destruct (Z.geb_spec x 256); [|lia]. destruct (Z.geb_spec x 16); [|lia].
    exists [x / 4096; (x / 256) mod 16; (x / 16) mod 16; x mod 16].
    rewrite <- !app_assoc. split; [reflexivity|]. split; [|split].
    + repeat (constructor; [lia|]). constructor.
    + simpl; lia.
    + unfold hexValue. simpl. Z.to_euclidean_division_equations. lia.
  - destruct (Z.geb_spec x 16); [|lia].
    exists [(x / 256) mod 16; (x / 16) mod 16; x mod 16].
    rewrite <- !app_assoc. split; [reflexivity|]. split; [|split].
    + repeat (constructor; [lia|]). constructor.
    + simpl; lia.
    + unfold hexValue. simpl. Z.to_euclidean_division_equations. lia.
  - exists [(x / 16) mod 16; x mod 16].
    rewrite <- !app_assoc. split; [reflexivity|]. split; [|split].
    + repeat (constructor; [lia|]). constructor.
    + simpl; lia.
    + unfold hexValue. simpl. Z.to_euclidean_division_equations. lia.
  - exists [x mod 16]. split; [reflexivity|]. split; [|split].
    + repeat (constructor; [lia|]). constructor.
    + simpl; lia.
    + unfold hexValue. simpl. Z.to_euclidean_division_equations. lia.
Qed.

Lemma parseHex_digits (ds : list Z) :
  forall off acc rest,
    Forall (fun d => 0 <= d <= 15) ds -> 0 <= acc ->
    (off + length ds <= 4)%nat -> hexValue ds acc <= 65535 ->
    stopsHex rest ->
    net.parseHex (map strconv.digit ds ++ rest) off acc
    = Some ((off + length ds)%nat, hexValue ds acc, rest).
Proof.
  induction ds as [|d ds IH]; intros off acc rest Hd Ha Hoff Hv Hstop.
  - simpl. rewrite Nat.add_0_r. unfold hexValue. simpl.
    destruct rest as [|c r]; [reflexivity|].
    simpl in Hstop. simpl. rewrite Hstop. reflexivity.
  - inversion Hd as [|? ? Hd0 Hds]; subst.
    destruct (hexdigit_facts d Hd0) as (Hhv & _).
    simpl map. simpl app. cbn [net.parseHex]. rewrite Hhv.
    rewrite Z.shiftl_mul_pow2 by lia. change (2 ^ 4) with 16.
    simpl length in Hoff.
    destruct (Nat.ltb_spec 3 off); [lia|].
    assert (Hge : acc * 16 + d <= hexValue ds (acc * 16 + d))
      by (apply hexValue_ge; [lia|exact Hds]).
    change (hexValue (d :: ds) acc) with (hexValue ds (acc * 16 + d)) in Hv |- *.
    destruct (Z.gtb_spec (acc * 16 + d) 65535); [lia|].
    rewrite IH; [|exact Hds|lia|lia|exact Hv|exact Hstop].
    simpl length. rewrite Nat.add_succ_r. reflexivity.
Qed.

Lemma parseHex_group (x : Z) (rest : gostring) :
  0 <= x <= 65535 -> stopsHex rest ->
  exists k, net.parseHex (net.appendHex [] x ++ rest) 0 0 = Some (S k, x, rest).
Proof.
  intros Hx Hstop.
  destruct (appendHex_digits [] x Hx) as (ds & -> & Hd & Hl & Hv).
  simpl app. rewrite parseHex_digits; [|exact Hd|lia|simpl; lia|lia|exact Hstop].
  rewrite Hv. destruct (length ds) as [|k]; [lia|].
  exists k. reflexivity.
Qed.

Lemma appendHex_app (acc : gostring) (x : Z) :
  net.appendHex acc x = acc ++ net.appendHex [] x.
Proof.
  unfold net.appendHex.
  destruct (x >=? 4096); destruct (x >=? 256); destruct (x >=? 16); simpl;
    rewrite <- ?app_assoc; reflexivity.
Qed.

Lemma startsHex_group (x : Z) (rest : gostring) :
  0 <= x <= 65535 -> startsHex (net.appendHex [] x ++ rest).
Proof.
  intros Hx. destruct (appendHex_digits [] x Hx) as (ds & -> & Hd & Hl & _).
  destruct ds as [|d ds]; [simpl in Hl; lia|].
  inversion Hd; subst. exists d, (map strconv.digit ds ++ rest).
  split; [assumption|reflexivity].
Qed.

Lemma startsHex_group_end (x : Z) :
  0 <= x <= 65535 -> startsHex (net.appendHex [] x).
Proof.
  intros Hx. rewrite <- (app_nil_r (net.appendHex [] x)).
  apply startsHex_group. exact Hx.
Qed.

Lemma group_chars (x : Z) :
  0 <= x <= 65535 -> Forall hexOrColon (net.appendHex [] x).
Proof.
  intros Hx. destruct (appendHex_digits [] x Hx) as (ds & -> & Hd & _).
  simpl app. induction Hd as [|d ds Hd0 _ IH]; simpl; constructor.
  - left. exists d. split; [assumption|reflexivity].
  - exact IH.
Qed.

(** ** IPv6 literals: the steps of the group loop *)

Section ParseGroups.

Variables (fuel : nat) (ip : list byte) (g : Z).
Hypothesis Hip : (length ip < 16)%nat.
Hypothesis Hg : 0 <= g <= 65535.

Let ip' := ip ++ [to_byte (Z.shiftr g 8); to_byte g].

(** A group, a colon, and more groups. *)
Lemma parseIPv6_loop_group_colon ellipsis (t : gostring) :
  startsHex t ->
  net.parseIPv6_loop (S fuel) ip ellipsis (net.appendHex [] g ++ ":"%byte :: t)
  = net.parseIPv6_loop fuel ip' ellipsis t.
Proof.
  intros (d & tl & Hd & ->).
  destruct (hexdigit_facts d Hd) as (_ & Hc & _).
  cbn [net.parseIPv6_loop].
  destruct (Nat.leb_spec 16 (length ip)); [lia|].
  destruct (parseHex_group g (":"%byte :: strconv.digit d :: tl) Hg eq_refl)
    as [k ->].
  cbn [nth]. change (Byte.eqb ":" ".") with false. cbn [andb].
  change (Byte.eqb ":" ":") with true. cbn [negb].
  rewrite Hc. reflexivity.
Qed.

(** A group, the ellipsis, and more groups. *)
Lemma parseIPv6_loop_group_ellipsis (t : gostring) :
  startsHex t ->
  net.parseIPv6_loop (S fuel) ip None
    (net.appendHex [] g ++ ":"%byte :: ":"%byte :: t)
  = net.parseIPv6_loop fuel ip' (Some (length ip')) t.
Proof.
  intros (d & tl & Hd & ->).
  cbn [net.parseIPv6_loop].
  destruct (Nat.leb_spec 16 (length ip)); [lia|].
  destruct (parseHex_group g (":"%byte :: ":"%byte :: strconv.digit d :: tl)
              Hg eq_refl) as [k ->].
  cbn [nth]. change (Byte.eqb ":" ".") with false. cbn [andb].
  change (Byte.eqb ":" ":") with true. cbn [negb]. reflexivity.
Qed.

(** A group and the ellipsis at the end of the text. *)
Lemma parseIPv6_loop_group_ellipsis_end :
  net.parseIPv6_loop (S fuel) ip None
    (net.appendHex [] g ++ [":"%byte; ":"%byte])
  = Some (ip', Some (length ip'), []).
Proof.
  cbn [net.parseIPv6_loop].
  destruct (Nat.leb_spec 16 (length ip)); [lia|].
  destruct (parseHex_group g [":"%byte; ":"%byte] Hg eq_refl) as [k ->].
  cbn [nth]. change (Byte.eqb ":" ".") with false. cbn [andb].
  change (Byte.eqb ":" ":") with true. cbn [negb]. reflexivity.
Qed.

(** The last group. *)
Lemma parseIPv6_loop_group_end ellipsis :
  net.parseIPv6_loop (S fuel) ip ellipsis (net.appendHex [] g)
  = Some (ip', ellipsis, []).
Proof.
  cbn [net.parseIPv6_loop].
  destruct (Nat.leb_spec 16 (length ip)); [lia|].
  destruct (parseHex_group g [] Hg I) as [k Hk].
  rewrite app_nil_r in Hk. rewrite Hk.
  cbn [nth length Nat.eqb negb andb]. rewrite andb_false_r. reflexivity.
Qed.

End ParseGroups.

(** ** IPv6 literals: groups of an address, and the longest run of zeros *)

Lemma v6u16_val ip i :
  net.v6u16 ip i
  = 256 * byte_val (nth (2 * i) ip x00) + byte_val (nth (2 * i + 1) ip x00).
Proof.
  unfold net.v6u16. rewrite Z.lor_comm.
  rewrite lor_shiftl_8
    by (pose proof (byte_val_range (nth (2 * i + 1) ip x00)); lia).
  lia.
Qed.

Lemma v6u16_range ip i : 0 <= net.v6u16 ip i <= 65535.
Proof.
  rewrite v6u16_val.
  pose proof (byte_val_range (nth (2 * i) ip x00)).
  pose proof (byte_val_range (nth (2 * i + 1) ip x00)). lia.
Qed.

Lemma v6u16_hi ip i :
  to_byte (Z.shiftr (net.v6u16 ip i) 8) = nth (2 * i) ip x00.
Proof.
  rewrite v6u16_val, Z.shiftr_div_pow2 by lia. change (2 ^ 8) with 256.
  pose proof (byte_val_range (nth (2 * i) ip x00)).
  pose proof (byte_val_range (nth (2 * i + 1) ip x00)).
  replace ((256 * byte_val (nth (2 * i) ip x00)
            + byte_val (nth (2 * i + 1) ip x00)) / 256)
    with (byte_val (nth (2 * i) ip x00))
    by (Z.to_euclidean_division_equations; lia).
  apply to_byte_byte_val.
Qed.

Lemma v6u16_lo ip i : to_byte (net.v6u16 ip i) = nth (2 * i + 1) ip x00.
Proof.
  rewrite v6u16_val. apply byte_val_inj. rewrite byte_val_to_byte.
  pose proof (byte_val_range (nth (2 * i) ip x00)).
  pose proof (byte_val_range (nth (2 * i + 1) ip x00)).
  Z.to_euclidean_division_equations; lia.
Qed.

Lemma v6u16_zero ip i :
  net.v6u16 ip i = 0 ->
  nth (2 * i) ip x00 = x00 /\ nth (2 * i + 1) ip x00 = x00.
Proof.
  rewrite v6u16_val. intros H.
  pose proof (byte_val_range (nth (2 * i) ip x00)).
  pose proof (byte_val_range (nth (2 * i + 1) ip x00)).
  split; apply byte_val_inj; change (byte_val x00) with 0; lia.
Qed.

Lemma zeroRun_spec ip fuel :
  forall j,
    (j <= net.zeroRun fuel ip j)%nat
    /\ ((j <= 8)%nat -> (net.zeroRun fuel ip j <= 8)%nat)
    /\ forall k, (j <= k < net.zeroRun fuel ip j)%nat -> net.v6u16 ip k = 0.
Proof.
  induction fuel as [|fuel IH]; intros j; cbn [net.zeroRun].
  - repeat split; try lia.
  - destruct (Nat.ltb_spec j 8); cbn [andb]; [|repeat split; lia].
    destruct (Z.eqb_spec (net.v6u16 ip j) 0) as [Hz|]; [|repeat split; lia].
    destruct (IH (S j)) as (H1 & H2 & H3). repeat split; try lia.
    intros k Hk. destruct (Nat.eq_dec k j) as [->|]; [exact Hz|].
    apply H3. lia.
Qed.

Lemma longestZeroRun_spec ip fuel :
  forall i zs ze,
    (i + fuel <= 8)%nat -> zeroRunInv ip zs ze ->
    zeroRunInv ip (fst (net.longestZeroRun fuel ip i zs ze))
                  (snd (net.longestZeroRun fuel ip i zs ze)).
Proof.
  induction fuel as [|fuel IH]; intros i zs ze Hi Hinv;
    cbn [net.longestZeroRun]; [exact Hinv|].
  destruct (zeroRun_spec ip 8 i) as (H1 & H2 & H3).
  destruct (Nat.leb_spec 2 (net.zeroRun 8 ip i - i)); cbn [andb];
    [|apply IH; [lia|exact Hinv]].
  destruct (Nat.ltb_spec (ze - zs) (net.zeroRun 8 ip i - i));
    apply IH; try lia; try exact Hinv.
  right. split; [lia|exact H3].
Qed.

(** [netip.ParseAddr] takes a text of hex digits and colons that holds a
    colon for an IPv6 literal. *)
Lemma ParseAddr_dispatch_v6 s rest :
  Forall hexOrColon rest -> In ":"%byte rest ->
  net.ParseAddr_dispatch s rest = net.parseIPv6 s.
Proof.
  induction 1 as [|c rest Hc _ IH]; intros Hin; [destruct Hin|].
  cbn [net.ParseAddr_dispatch].
  destruct Hc as [(d & Hd & ->)| ->].
  - destruct (hexdigit_facts d Hd) as (_ & H1 & H2 & H3 & _).
    rewrite H1, H2, H3. apply IH.
    destruct Hin as [Hin|Hin]; [|exact Hin].
    apply Byte.byte_dec_lb in Hin. congruence.
  - reflexivity.
Qed.

Lemma hexOrColon_not_percent t :
  Forall hexOrColon t -> net.IndexByte t "%" = None.
Proof.
  intros H. apply IndexByte_None. intros Hin.
  rewrite Forall_forall in H. destruct (H _ Hin) as [(d & Hd & E)|E];
    [|discriminate].
  destruct (hexdigit_facts d Hd) as (_ & _ & _ & H3 & _).
  rewrite <- E in H3. discriminate.
Qed.

(** How [netip.parseIPv6] starts: on a group, or on the ellipsis. *)
Lemma parseIPv6_start_group t :
  startsHex t -> Forall hexOrColon t ->
  net.parseIPv6 t
  = match net.parseIPv6_loop 8 [] None t with
    | None => None
    | Some r => net.expandEllipsis r
    end.
Proof.
  intros (d & tl & Hd & ->) Hf. unfold net.parseIPv6.
  rewrite hexOrColon_not_percent by exact Hf.
  destruct (hexdigit_facts d Hd) as (_ & Hc & _).
  destruct tl; [reflexivity|]. rewrite Hc. reflexivity.
Qed.

Lemma parseIPv6_start_ellipsis t :
  startsHex t -> Forall hexOrColon t ->
  net.parseIPv6 (":"%byte :: ":"%byte :: t)
  = match net.parseIPv6_loop 8 [] (Some 0%nat) t with
    | None => None
    | Some r => net.expandEllipsis r
    end.
Proof.
  intros (d & tl & Hd & ->) Hf. unfold net.parseIPv6.
  rewrite hexOrColon_not_percent
    by (repeat (constructor; [right; reflexivity|]); exact Hf).
  reflexivity.
Qed.

(** ** IPv6 literals: the canonical text and back

    The text [Addr.string6] writes is one of twenty-nine shapes, by the
    position of the longest run of zero groups; on each the group loop of
    [netip.parseIPv6] is run symbolically. *)

Ltac v6_side :=
  first [ apply v6u16_range
        | apply startsHex_group; apply v6u16_range
        | apply startsHex_group_end; apply v6u16_range
        | simpl; lia ].

Ltac v6_step :=
  first [ rewrite parseIPv6_loop_group_ellipsis_end by v6_side
        | rewrite parseIPv6_loop_group_ellipsis by v6_side
        | rewrite parseIPv6_loop_group_colon by v6_side
        | rewrite parseIPv6_loop_group_end by v6_side ].

Ltac v6_chars :=
  repeat first
    [ apply Forall_nil
    | apply Forall_cons; [right; reflexivity|]
    | apply group_chars; apply v6u16_range
    | apply Forall_app; split; [apply group_chars; apply v6u16_range|] ].

Ltac v6_normal :=
  cbn [net.appendTo6_loop Nat.leb Nat.eqb Nat.ltb];
  rewrite ?(appendHex_app (_ ++ _)), ?(appendHex_app (_ :: _));
  change (str "::") with [":"%byte; ":"%byte];
  change (str ":") with [":"%byte];
  rewrite <- ?app_assoc; cbn [app].

Ltac v6_zero Hz k :=
  try (let H := fresh in
       pose proof (v6u16_zero _ k (Hz k ltac:(lia))) as H;
       cbn [nth Nat.mul Nat.add] in H; destruct H; subst).

Ltac v6_case :=
  v6_normal;
  match goal with
  | |- net.parseIPv6 ?t = _ /\ _ /\ _ =>
      assert (Forall hexOrColon t) by v6_chars
  end;
  split; [|split; [assumption|]];
  [ first [ reflexivity
          | rewrite parseIPv6_start_group by (first [v6_side | v6_chars])
          | rewrite parseIPv6_start_ellipsis by (first [v6_side | v6_chars]) ];
    repeat v6_step;
    rewrite ?v6u16_hi, ?v6u16_lo; cbn [nth Nat.mul Nat.add]; reflexivity
  | first [ left; reflexivity | apply in_or_app; right; left; reflexivity ] ].

(** [net.ParseIP] reads back the text [Addr.string6] writes for a sixteen-byte
    address; the text is made of hex digits and colons and holds a colon. *)
Lemma parseIPv6_string6 (ip : list byte) :
  length ip = 16%nat ->
  net.parseIPv6 (net.string6 ip) = Some ip
  /\ Forall hexOrColon (net.string6 ip)
  /\ In ":"%byte (net.string6 ip).
Proof.
  intros Hl.
  destruct ip as [|b0 [|b1 [|b2 [|b3 [|b4 [|b5 [|b6 [|b7 [|b8 [|b9 [|b10
    [|b11 [|b12 [|b13 [|b14 [|b15 [|? ?]]]]]]]]]]]]]]]]]; try discriminate.
  clear Hl. unfold net.string6.
  pose proof (longestZeroRun_spec
                [b0; b1; b2; b3; b4; b5; b6; b7; b8; b9; b10; b11; b12; b13;
                 b14; b15] 8 0 255 255 ltac:(lia)
                (or_introl (conj eq_refl eq_refl))) as Hinv.
  destruct (net.longestZeroRun 8 _ 0 255 255) as [zs ze].
  cbn [fst snd] in Hinv. destruct Hinv as [[-> ->]|[Hrun Hz]].
  - v6_case.
  - destruct zs as [|[|[|[|[|[|[|[|zs]]]]]]]]; try lia;
      destruct ze as [|[|[|[|[|[|[|[|[|ze]]]]]]]]]; try lia;
      v6_zero Hz 0%nat; v6_zero Hz 1%nat; v6_zero Hz 2%nat; v6_zero Hz 3%nat;
      v6_zero Hz 4%nat; v6_zero Hz 5%nat; v6_zero Hz 6%nat; v6_zero Hz 7%nat;
      v6_case.
Qed.

Lemma ParseIP_string6 (ip : list byte) :
  length ip = 16%nat -> net.ParseIP (net.string6 ip) = Some ip.
Proof.
  intros Hl. destruct (parseIPv6_string6 ip Hl) as (Hp & Hc & Hin).
  unfold net.ParseIP. rewrite ParseAddr_dispatch_v6 by assumption. exact Hp.
Qed.

(** ** Decoding an encoded endpoint gives an equivalent endpoint *)

Lemma digits_no_special (p : gostring) (x : byte) :
  Forall (fun c => net.isDigit c = true) p -> net.isDigit x = false ->
  ~ In x p.
Proof.
  intros Hf Hx Hin. rewrite Forall_forall in Hf. apply Hf in Hin. congruence.
Qed.

Lemma encodeAddress_join lookupPort (host : gostring) (port : Z) :
  ~ In "["%byte host -> ~ In "]"%byte host -> 0 <= port <= 65535 ->
  encodeAddress lookupPort (net.JoinHostPort host (strconv.Sprint port))
  = match
      match net.ParseIP host with
      | Some ip =>
          match net.To4 ip with
          | Some ip4 => Ok ([x01] ++ ip4)
          | None => Ok ([x04] ++ ip)
          end
      | None =>
          if len host >? 255 then Err ErrDomainTooLong
          else Ok ([x03] ++ [to_byte (len host)] ++ host)
      end
    with
    | Err e => Err e
    | Ok buf => Ok (buf ++ binary.PutUint16 port)
    end.
Proof.
  intros H1 H2 Hp. destruct (Sprint_digits port Hp) as [Hd _].
  unfold encodeAddress.
  rewrite SplitHostPort_JoinHostPort;
    [|assumption|assumption
     |apply digits_no_special; [exact Hd|reflexivity]
     |apply digits_no_special; [exact Hd|reflexivity]
     |apply digits_no_special; [exact Hd|reflexivity]].
  rewrite LookupPort_Sprint by exact Hp.
  unfold uint16. rewrite (Z.mod_small port) by lia. reflexivity.
Qed.

(** The address [decodeAddress] returns for an encoded endpoint encodes to
    the same bytes. *)
Lemma decode_encode_equivalent lookupPort rawAddr buf :
  encodeAddress lookupPort rawAddr = Ok buf ->
  exists addr,
    (forall rest, decodeAddress (buf ++ rest) = (Ok addr, rest))
    /\ encodeAddress lookupPort addr = Ok buf.
Proof.
  intros H. apply encodeAddress_shape in H.
  destruct H as (host & portStr & port & Hs & _ & Hr & H).
  destruct H as [(ip & ip4 & _ & _ & Hl & ->)|[(ip & _ & H4 & Hl & ->)|(Hip & Hl & ->)]].
  - exists (net.JoinHostPort (net.IP_String ip4) (strconv.Sprint port)). split.
    + intros rest. rewrite <- !app_assoc. apply decodeAddress_IPv4; assumption.
    + destruct ip4 as [|a [|b [|c [|d [|? ?]]]]]; try discriminate.
      change (net.IP_String [a; b; c; d]) with (net.string4 [a; b; c; d]).
      pose proof (string4_chars a b c d) as Hc. rewrite Forall_forall in Hc.
      rewrite encodeAddress_join; [|intros Hin|intros Hin|exact Hr].
      * rewrite ParseIP_string4. reflexivity.
      * destruct (Hc _ Hin); discriminate.
      * destruct (Hc _ Hin); discriminate.
  - exists (net.JoinHostPort (net.IP_String ip) (strconv.Sprint port)). split.
    + intros rest. rewrite <- !app_assoc. apply decodeAddress_IPv6; assumption.
    + assert (Hstr : net.IP_String ip = net.string6 ip).
      { unfold net.IP_String. rewrite Hl, H4. reflexivity. }
      rewrite Hstr.
      destruct (parseIPv6_string6 ip Hl) as (_ & Hc & _).
      rewrite Forall_forall in Hc.
      assert (Hnb : forall x, x = "["%byte \/ x = "]"%byte ->
                              ~ In x (net.string6 ip)).
      { intros x Hx Hin. destruct (Hc _ Hin) as [(d & Hd & E)|E].
        - destruct (hexdigit_facts d Hd) as (_ & _ & _ & _ & N1 & N2).
          destruct Hx; congruence.
        - destruct Hx; congruence. }
      rewrite encodeAddress_join; [|apply Hnb; auto|apply Hnb; auto|exact Hr].
      rewrite ParseIP_string6 by exact Hl. rewrite H4. reflexivity.
  - exists (net.JoinHostPort host (strconv.Sprint port)). split.
    + intros rest. rewrite <- !app_assoc. apply decodeAddress_domain; assumption.
    + destruct (SplitHostPort_no_brackets _ _ _ Hs) as [N1 N2].
      rewrite encodeAddress_join by assumption. rewrite Hip.
      destruct (Z.gtb_spec (len host) 255) as [Hgt|_];
        [unfold len in Hgt; lia|]. reflexivity.
Qed.

(** The round trip below the limit of the length field.  For every
    endpoint that [encodeAddress] accepts and every payload of at most
    65535 bytes, [WriteDatagram] on a healthy stream succeeds, and
    [ReadDatagram] on the bytes written, whatever follows them, returns an
    equivalent endpoint and exactly the payload, leaving what follows. *)
Theorem datagram_round_trip
    (lookupPort : gostring -> result Z)
    (addr : gostring) (addrBuf payload : list byte) (tail : Reader) :
  encodeAddress lookupPort addr = Ok addrBuf ->
  len payload <= 65535 ->
  exists (frame : Buffer) (addr' : gostring),
    WriteDatagram lookupPort ([] : Buffer) addr payload = (frame, None)
    /\ ReadDatagram (frame ++ tail) = (Ok (addr', payload), tail)
    /\ equivalentEndpoint lookupPort addr addr'.
Proof.
  intros He Hp.
  pose proof (encodeAddress_length _ _ _ He) as Hl.
  destruct (decode_encode_equivalent _ _ _ He) as (addr' & Hd & He').
  specialize (Hd []). rewrite app_nil_r in Hd.
  eexists; exists addr'. split; [|split].
  - apply WriteDatagram_Buffer; [exact He|unfold maxUoTPayload; lia].
  - unfold uint16. rewrite (Z.mod_small (len payload)) by (unfold len in *; lia).
    cbn [app]. rewrite <- !app_assoc.
    rewrite (ReadDatagram_frame addrBuf addr' (len payload) (payload ++ tail));
      [|lia|unfold len in *; lia|rewrite Hd; reflexivity].
    rewrite (ReadFull_exact (Z.to_nat (len payload)) payload)
      by (unfold len; rewrite Nat2Z.id; reflexivity).
    reflexivity.
  - exists addrBuf. split; assumption.
Qed.

Lemma datagram_round_trip_witness :
  exists (frame : Buffer) (addr' : gostring),
    WriteDatagram builtinServices ([] : Buffer) (str "[2001:DB8:0:0:0:0:0:1]:domain")
      [x01; x02; x03] = (frame, None)
    /\ ReadDatagram (frame ++ frame_1_2_3_4)
       = (Ok (addr', [x01; x02; x03]), frame_1_2_3_4)
    /\ equivalentEndpoint builtinServices
         (str "[2001:DB8:0:0:0:0:0:1]:domain") addr'.
Proof.
  apply (datagram_round_trip builtinServices
           (str "[2001:DB8:0:0:0:0:0:1]:domain")
           ([x04; x20; x01; x0d; xb8] ++ repeat x00 11 ++ [x01; x00; x35])).
  - reflexivity.
  - vm_compute. discriminate.
Defined.

(** ** More properties of the framer and the adapter *)

(** The address codec round trip.  Every endpoint text that
    [encodeAddress] accepts is encoded in 3 to 259 bytes; [decodeAddress]
    on those bytes, whatever follows them, succeeds, reads exactly those
    bytes, and returns an equivalent endpoint text. *)
Theorem address_round_trip
    (lookupPort : gostring -> result Z) (rawAddr : gostring)
    (buf : list byte) :
  encodeAddress lookupPort rawAddr = Ok buf ->
  3 <= len buf <= 259
  /\ exists addr,
       (forall rest, decodeAddress (buf ++ rest) = (Ok addr, rest))
       /\ equivalentEndpoint lookupPort rawAddr addr.
Proof.
  intros He. split; [eapply encodeAddress_length; exact He|].
  destruct (decode_encode_equivalent _ _ _ He) as (addr & Hd & He').
  exists addr. split; [exact Hd|]. exists buf. split; assumption.
Qed.

Lemma address_round_trip_witness :
  3 <= len ([x03; x0b] ++ str "example.com" ++ [x00; x35]) <= 259
  /\ exists addr,
       (forall rest,
           decodeAddress (([x03; x0b] ++ str "example.com" ++ [x00; x35]) ++ rest)
           = (Ok addr, rest))
       /\ equivalentEndpoint builtinServices (str "example.com:domain") addr.
Proof.
  apply (address_round_trip builtinServices (str "example.com:domain")).
  reflexivity.
Defined.



(** ** More on the datagram framer *)

Lemma ReadFull_short (n : nat) (r : Reader) :
  (length r < n)%nat ->
  io.ReadFull n r
  = (Err (if (length r =? 0)%nat then EOF else ErrUnexpectedEOF), []).
Proof.
  intros H. unfold io.ReadFull.
  destruct (Nat.eqb_spec n 0); [lia|].
  destruct (Nat.leb_spec n (length r)); [lia|].
  destruct r; reflexivity.
Qed.

Lemma ReadDatagram_Ok_fields (r r' : Reader) (addr : gostring)
    (payload : list byte) :
  ReadDatagram r = (Ok (addr, payload), r') ->
  exists (h0 h1 h2 h3 : byte) (addrBuf : list byte),
    r = [h0; h1; h2; h3] ++ addrBuf ++ payload ++ r'
    /\ len addrBuf = binary.Uint16 [h0; h1]
    /\ 0 < len addrBuf <= 65535
    /\ len payload = binary.Uint16 [h2; h3]
    /\ len payload <= 65535
    /\ fst (decodeAddress addrBuf) = Ok addr.
Proof.
  destruct (Nat.lt_ge_cases (length r) 4) as [Hs|Hl].
  - destruct (ReadDatagram_short r Hs) as (e & -> & _). discriminate.
  - destruct r as [|h0 [|h1 [|h2 [|h3 rest]]]]; simpl in Hl; try lia.
    rewrite ReadDatagram_header. cbv zeta.
    pose proof (Uint16_range h0 h1) as Ha.
    pose proof (Uint16_range h2 h3) as Hp.
    destruct ((binary.Uint16 [h0; h1] <=? 0) || _) eqn:Ea; [discriminate|].
    rewrite payloadLen_check_false.
    apply orb_false_iff in Ea. destruct Ea as [Ea _]. apply Z.leb_gt in Ea.
    destruct (io.ReadFull _ rest) as [[addrBuf|e] r1] eqn:E1; [|discriminate].
    apply ReadFull_Ok in E1. destruct E1 as [-> Hlen].
    destruct (decodeAddress addrBuf) as [[a|e] r0] eqn:Ed; [|discriminate].
    destruct (io.ReadFull _ r1) as [[pl|e] r2] eqn:E2; [|discriminate].
    apply ReadFull_Ok in E2. destruct E2 as [-> Hlen2].
    intros [= <- <- <-].
    exists h0, h1, h2, h3, addrBuf. unfold len. rewrite Hlen, Hlen2.
    rewrite !Z2Nat.id by lia. rewrite Ed.
    repeat split; try lia; reflexivity.
Qed.

(** What a successful [ReadDatagram] took off the stream: the four header
    bytes, as many address bytes as the first field says, as many payload
    bytes as the second field says, and nothing else. *)
Theorem ReadDatagram_Ok_layout (r r' : Reader) (addr : gostring)
    (payload : list byte) :
  ReadDatagram r = (Ok (addr, payload), r') ->
  exists (h0 h1 h2 h3 : byte) (addrBuf : list byte),
    r = [h0; h1; h2; h3] ++ addrBuf ++ payload ++ r'
    /\ len addrBuf = binary.Uint16 [h0; h1]
    /\ 0 < len addrBuf <= 65535
    /\ len payload = binary.Uint16 [h2; h3]
    /\ len payload <= 65535
    /\ fst (decodeAddress addrBuf) = Ok addr.
Proof. apply ReadDatagram_Ok_fields. Qed.

Lemma ReadDatagram_Ok_layout_witness :
  exists (h0 h1 h2 h3 : byte) (addrBuf : list byte),
    frame_1_2_3_4 ++ [xee] = [h0; h1; h2; h3] ++ addrBuf ++ [xcc] ++ [xee]
    /\ len addrBuf = binary.Uint16 [h0; h1]
    /\ 0 < len addrBuf <= 65535
    /\ len [xcc] = binary.Uint16 [h2; h3]
    /\ len [xcc] <= 65535
    /\ fst (decodeAddress addrBuf) = Ok (str "1.2.3.4:53").
Proof.
  apply (ReadDatagram_Ok_layout (frame_1_2_3_4 ++ [xee]) [xee]
           (str "1.2.3.4:53") [xcc]).
  reflexivity.
Defined.

(** A stream that ends inside a frame.  [ReadDatagram] on any strict prefix
    of a well-formed frame fails and has read the whole prefix; the error
    is [io.EOF] when the stream ends at a field boundary (before the
    header, right after it, or right after the address) and
    [io.ErrUnexpectedEOF] when it ends inside a field. *)
Theorem ReadDatagram_truncated (addrBuf : list byte) (addr : gostring)
    (payload : list byte) (n : nat) :
  0 < len addrBuf <= 65535 ->
  len payload <= 65535 ->
  fst (decodeAddress addrBuf) = Ok addr ->
  (n < 4 + length addrBuf + length payload)%nat ->
  ReadDatagram
    (firstn n (binary.PutUint16 (len addrBuf)
                 ++ binary.PutUint16 (len payload) ++ addrBuf ++ payload))
  = (Err (if (n =? 0)%nat || (n =? 4)%nat || (n =? 4 + length addrBuf)%nat
          then EOF else ErrUnexpectedEOF), []).
Proof.
  intros Ha Hp Hd Hn.
  destruct (Nat.lt_ge_cases n 4) as [Hs|Hl].
  - change (binary.PutUint16 (len addrBuf)
              ++ binary.PutUint16 (len payload) ++ addrBuf ++ payload)
      with (to_byte (Z.shiftr (len addrBuf) 8) :: to_byte (len addrBuf)
              :: to_byte (Z.shiftr (len payload) 8) :: to_byte (len payload)
              :: addrBuf ++ payload).
    destruct n as [|[|[|[|n]]]]; try lia; reflexivity.
  - destruct (Nat.lt_ge_cases n (4 + length addrBuf)) as [Hin|Hout].
    + (* the stream ends inside, or right before, the address *)
      change (binary.PutUint16 (len addrBuf)
                ++ binary.PutUint16 (len payload) ++ addrBuf ++ payload)
        with (to_byte (Z.shiftr (len addrBuf) 8) :: to_byte (len addrBuf)
                :: to_byte (Z.shiftr (len payload) 8) :: to_byte (len payload)
                :: addrBuf ++ payload).
      destruct n as [|[|[|[|m]]]]; try lia. cbn [firstn].
      rewrite ReadDatagram_header. cbv zeta.
      rewrite payloadLen_check_false.
      change [to_byte (Z.shiftr (len addrBuf) 8); to_byte (len addrBuf)]
        with (binary.PutUint16 (len addrBuf)).
      rewrite Uint16_PutUint16, Z.mod_small by lia.
      destruct (Z.leb_spec (len addrBuf) 0); [lia|].
      destruct (Z.gtb_spec (len addrBuf) maxUoTPayload) as [Hgt|_];
        [unfold maxUoTPayload in Hgt; lia|].
      cbn [orb].
      assert (Hlen : length (firstn m (addrBuf ++ payload)) = m).
      { apply firstn_length_le. rewrite length_app. lia. }
      rewrite ReadFull_short by (unfold len; rewrite Nat2Z.id, Hlen; lia).
      rewrite Hlen.
      replace (S (S (S (S m))) =? 4 + length addrBuf)%nat with false
        by (symmetry; apply Nat.eqb_neq; lia).
      destruct m; reflexivity.
    + (* the address is complete; the stream ends before or inside the payload *)
      assert (Hsplit :
        firstn n (binary.PutUint16 (len addrBuf)
                    ++ binary.PutUint16 (len payload) ++ addrBuf ++ payload)
        = binary.PutUint16 (len addrBuf) ++ binary.PutUint16 (len payload)
            ++ addrBuf ++ firstn (n - 4 - length addrBuf) payload).
      { replace (binary.PutUint16 (len addrBuf)
                   ++ binary.PutUint16 (len payload) ++ addrBuf ++ payload)
          with ((binary.PutUint16 (len addrBuf)
                   ++ binary.PutUint16 (len payload) ++ addrBuf) ++ payload)
          by (rewrite <- !app_assoc; reflexivity).
        assert (Hpre : length (binary.PutUint16 (len addrBuf)
                                 ++ binary.PutUint16 (len payload) ++ addrBuf)
                       = (4 + length addrBuf)%nat)
          by (rewrite !length_app, !PutUint16_length; lia).
        rewrite firstn_app, firstn_all2 by lia. rewrite Hpre.
        replace (n - (4 + length addrBuf))%nat
          with (n - 4 - length addrBuf)%nat by lia.
        rewrite <- !app_assoc. reflexivity. }
      rewrite Hsplit.
      rewrite (ReadDatagram_frame addrBuf addr (len payload)) by (first [assumption | unfold len in *; lia]).
      assert (Hlen : length (firstn (n - 4 - length addrBuf) payload)
                     = (n - 4 - length addrBuf)%nat).
      { apply firstn_length_le. lia. }
      rewrite ReadFull_short by (unfold len; rewrite Nat2Z.id, Hlen; lia).
      rewrite Hlen.
      destruct (Nat.eqb_spec n 0); [lia|]. destruct (Nat.eqb_spec n 4).
      * subst n. cbn [orb]. replace (4 - 4 - length addrBuf)%nat with 0%nat by lia.
        reflexivity.
      * cbn [orb]. destruct (Nat.eqb_spec n (4 + length addrBuf)) as [->|Hne].
        -- replace (4 + length addrBuf - 4 - length addrBuf)%nat with 0%nat by lia.
           reflexivity.
        -- destruct (Nat.eqb_spec (n - 4 - length addrBuf) 0); [lia|reflexivity].
Qed.

(** Bytes of the address field that follow the encoded address are
    ignored: [ReadDatagram] decodes the address from the front of the
    field and drops the rest of it. *)
Theorem ReadDatagram_ignores_address_tail
    (lookupPort : gostring -> result Z) (addr : gostring)
    (addrBuf junk payload : list byte) (tail : Reader) :
  encodeAddress lookupPort addr = Ok addrBuf ->
  len (addrBuf ++ junk) <= 65535 ->
  len payload <= 65535 ->
  exists addr',
    equivalentEndpoint lookupPort addr addr'
    /\ ReadDatagram (binary.PutUint16 (len (addrBuf ++ junk))
                       ++ binary.PutUint16 (len payload)
                       ++ (addrBuf ++ junk) ++ payload ++ tail)
       = (Ok (addr', payload), tail).
Proof.
  intros He Hj Hp.
  pose proof (encodeAddress_length _ _ _ He) as Hl.
  destruct (decode_encode_equivalent _ _ _ He) as (addr' & Hd & He').
  exists addr'. split; [exists addrBuf; split; assumption|].
  rewrite (ReadDatagram_frame (addrBuf ++ junk) addr' (len payload)
             (payload ++ tail)).
  - rewrite (ReadFull_exact (Z.to_nat (len payload)) payload)
      by (unfold len; rewrite Nat2Z.id; reflexivity).
    reflexivity.
  - unfold len in *. rewrite length_app in *. lia.
  - unfold len in *. lia.
  - rewrite Hd. reflexivity.
Qed.

Lemma ReadDatagram_ignores_address_tail_witness :
  exists addr',
    equivalentEndpoint builtinServices (str "1.2.3.4:53") addr'
    /\ ReadDatagram ([x00; x09; x00; x01]
                       ++ ([x01; x01; x02; x03; x04; x00; x35] ++ [xde; xad])
                       ++ [xcc] ++ [xee])
       = (Ok (addr', [xcc]), [xee]).
Proof.
  apply (ReadDatagram_ignores_address_tail builtinServices (str "1.2.3.4:53")
           [x01; x01; x02; x03; x04; x00; x35] [xde; xad] [xcc] [xee]).
  - reflexivity.
  - vm_compute. discriminate.
  - vm_compute. discriminate.
Defined.

(** [decodeAddress] does not tell the two wire forms of an IPv4 address
    apart: the IPv6-tagged form of the IPv4-mapped address
    [::ffff:a.b.c.d] decodes to the same dotted text as the IPv4-tagged
    form of [a.b.c.d]. *)
Theorem decodeAddress_mapped_IPv4 (a b c d : byte) (port : Z) (rest : Reader) :
  0 <= port <= 65535 ->
  decodeAddress ([x04] ++ (repeat x00 10 ++ [xff; xff; a; b; c; d])
                   ++ binary.PutUint16 port ++ rest)
  = decodeAddress ([x01] ++ [a; b; c; d] ++ binary.PutUint16 port ++ rest)
  /\ decodeAddress ([x01] ++ [a; b; c; d] ++ binary.PutUint16 port ++ rest)
     = (Ok (net.string4 [a; b; c; d] ++ str ":" ++ strconv.Sprint port), rest).
Proof.
  intros Hp.
  rewrite decodeAddress_IPv6, decodeAddress_IPv4 by (reflexivity || exact Hp).
  change (net.IP_String (repeat x00 10 ++ [xff; xff; a; b; c; d]))
    with (net.string4 [a; b; c; d]).
  change (net.IP_String [a; b; c; d]) with (net.string4 [a; b; c; d]).
  split; [reflexivity|]. f_equal. f_equal.
  unfold net.JoinHostPort.
  assert (Hc : net.contains (net.string4 [a; b; c; d]) ":" = false).
  { apply contains_false. intros Hin.
    pose proof (string4_chars a b c d) as Hf. rewrite Forall_forall in Hf.
    destruct (Hf _ Hin); discriminate. }
  rewrite Hc. reflexivity.
Qed.

Lemma decodeAddress_mapped_IPv4_witness :
  decodeAddress ([x04] ++ (repeat x00 10 ++ [xff; xff; x01; x02; x03; x04])
                   ++ binary.PutUint16 53 ++ [])
  = decodeAddress ([x01] ++ [x01; x02; x03; x04] ++ binary.PutUint16 53 ++ [])
  /\ decodeAddress ([x01] ++ [x01; x02; x03; x04] ++ binary.PutUint16 53 ++ [])
     = (Ok (net.string4 [x01; x02; x03; x04] ++ str ":" ++ strconv.Sprint 53), []).
Proof.
  apply (decodeAddress_mapped_IPv4 x01 x02 x03 x04 53 []). lia.
Defined.

(** The text forms Go prints are encoded as expected: a dotted IPv4
    literal gives tag 1 and its four octets; the bracketed canonical text
    of a sixteen-byte address gives tag 4 and the sixteen bytes, unless
    the address is IPv4-mapped, which gives tag 1 and the last four bytes. *)
Theorem encodeAddress_IP_literals
    (lookupPort : gostring -> result Z) (port : Z) :
  0 <= port <= 65535 ->
  (forall a b c d : byte,
      encodeAddress lookupPort
        (net.JoinHostPort (net.string4 [a; b; c; d]) (strconv.Sprint port))
      = Ok ([x01; a; b; c; d] ++ binary.PutUint16 port))
  /\ (forall ip : list byte,
        length ip = 16%nat ->
        encodeAddress lookupPort
          (net.JoinHostPort (net.string6 ip) (strconv.Sprint port))
        = match net.To4 ip with
          | Some ip4 => Ok ([x01] ++ ip4 ++ binary.PutUint16 port)
          | None => Ok ([x04] ++ ip ++ binary.PutUint16 port)
          end).
Proof.
  intros Hp. split.
  - intros a b c d.
    pose proof (string4_chars a b c d) as Hc. rewrite Forall_forall in Hc.
    rewrite encodeAddress_join; [|intros Hin|intros Hin|exact Hp].
    + rewrite ParseIP_string4. reflexivity.
    + destruct (Hc _ Hin); discriminate.
    + destruct (Hc _ Hin); discriminate.
  - intros ip Hl.
    destruct (parseIPv6_string6 ip Hl) as (_ & Hc & _).
    rewrite Forall_forall in Hc.
    assert (Hnb : forall x, x = "["%byte \/ x = "]"%byte ->
                            ~ In x (net.string6 ip)).
    { intros x Hx Hin. destruct (Hc _ Hin) as [(d & Hd & E)|E].
      - destruct (hexdigit_facts d Hd) as (_ & _ & _ & _ & N1 & N2).
        destruct Hx; congruence.
      - destruct Hx; congruence. }
    rewrite encodeAddress_join; [|apply Hnb; auto|apply Hnb; auto|exact Hp].
    rewrite ParseIP_string6 by exact Hl.
    destruct (net.To4 ip); rewrite <- ?app_assoc; reflexivity.
Qed.

Lemma encodeAddress_IP_literals_witness :
  encodeAddress builtinServices (str "93.184.216.34:443")
  = Ok ([x01; x5d; xb8; xd8; x22] ++ binary.PutUint16 443)
  /\ encodeAddress builtinServices (str "[::ffff:102:304]:443")
     = Ok ([x01] ++ [x01; x02; x03; x04] ++ binary.PutUint16 443).
Proof.
  destruct (encodeAddress_IP_literals builtinServices 443 ltac:(lia))
    as [H4 H6].
  split.
  - exact (H4 x5d xb8 xd8 x22).
  - exact (H6 (repeat x00 10 ++ [xff; xff; x01; x02; x03; x04]) eq_refl).
Defined.

(** An empty host is not rejected: ":port" is encoded as a domain name of
    length zero, and decodes to ":port" again. *)
Theorem encodeAddress_empty_host
    (lookupPort : gostring -> result Z) (port : Z) (rest : Reader) :
  0 <= port <= 65535 ->
  encodeAddress lookupPort (str ":" ++ strconv.Sprint port)
  = Ok ([x03; x00] ++ binary.PutUint16 port)
  /\ decodeAddress (([x03; x00] ++ binary.PutUint16 port) ++ rest)
     = (Ok (str ":" ++ strconv.Sprint port), rest).
Proof.
  intros Hp. split.
  - change (str ":" ++ strconv.Sprint port)
      with (net.JoinHostPort [] (strconv.Sprint port)).
    rewrite encodeAddress_join by (auto || exact Hp). reflexivity.
  - rewrite <- app_assoc.
    exact (decodeAddress_domain [] port rest ltac:(simpl; lia) Hp).
Qed.

Lemma encodeAddress_empty_host_witness :
  encodeAddress builtinServices (str ":" ++ strconv.Sprint 53)
  = Ok ([x03; x00] ++ binary.PutUint16 53)
  /\ decodeAddress (([x03; x00] ++ binary.PutUint16 53) ++ [xee])
     = (Ok (str ":" ++ strconv.Sprint 53), [xee]).
Proof. apply (encodeAddress_empty_host builtinServices 53 [xee]). lia. Defined.

(** On a healthy stream [WriteDatagram] fails in two ways only, and then
    writes nothing: the address does not encode, or the payload has more
    than 65536 bytes.  The address-too-long error never occurs: an encoded
    address has between 3 and 259 bytes. *)
Theorem WriteDatagram_Buffer_errors
    (lookupPort : gostring -> result Z) (w w' : Buffer)
    (addr : gostring) (payload : list byte) (err : error) :
  WriteDatagram lookupPort w addr payload = (w', Some err) ->
  w' = w
  /\ ((exists e, encodeAddress lookupPort addr = Err e
                 /\ err = ErrEncodeAddress e)
      \/ (exists addrBuf, encodeAddress lookupPort addr = Ok addrBuf
                          /\ 3 <= len addrBuf <= 259
                          /\ 65536 < len payload
                          /\ err = ErrPayloadTooLarge (len payload))).
Proof.
  destruct (encodeAddress lookupPort addr) as [addrBuf|e] eqn:He.
  - pose proof (encodeAddress_length _ _ _ He) as Hl.
    destruct (Z.le_gt_cases (len payload) maxUoTPayload) as [Hle|Hgt].
    + rewrite (WriteDatagram_Buffer _ _ _ _ _ He Hle). discriminate.
    + rewrite (WriteDatagram_too_large _ _ _ _ _ He) by lia.
      intros [= <- <-]. split; [reflexivity|]. right.
      exists addrBuf. unfold maxUoTPayload in Hgt. repeat split; try lia.
  - unfold WriteDatagram. rewrite He. intros [= <- <-].
    split; [reflexivity|]. left. exists e. split; reflexivity.
Qed.

Lemma WriteDatagram_Buffer_errors_witness :
  ([x07] : Buffer) = [x07]
  /\ ((exists e, encodeAddress builtinServices (str "example.com") = Err e
                 /\ ErrEncodeAddress
                      (AddrError net.missingPort (str "example.com"))
                    = ErrEncodeAddress e)
      \/ (exists addrBuf,
             encodeAddress builtinServices (str "example.com") = Ok addrBuf
             /\ 3 <= len addrBuf <= 259
             /\ 65536 < len [x01]
             /\ ErrEncodeAddress
                  (AddrError net.missingPort (str "example.com"))
                = ErrPayloadTooLarge (len [x01]))).
Proof.
  apply (WriteDatagram_Buffer_errors builtinServices [x07] [x07]
           (str "example.com") [x01]).
  reflexivity.
Defined.

(** Frames are self-delimiting and are read in the order written: two
    datagrams written one after the other to a healthy stream, after
    whatever it already holds, are read back one after the other, each
    with an equivalent endpoint and its exact payload. *)
Theorem two_datagrams_in_order
    (lookupPort : gostring -> result Z) (w : Buffer)
    (addr1 addr2 : gostring) (buf1 buf2 payload1 payload2 : list byte)
    (tail : Reader) :
  encodeAddress lookupPort addr1 = Ok buf1 ->
  encodeAddress lookupPort addr2 = Ok buf2 ->
  len payload1 <= 65535 -> len payload2 <= 65535 ->
  exists (frame1 frame2 : list byte) (addr1' addr2' : gostring),
    WriteDatagram lookupPort w addr1 payload1 = (w ++ frame1, None)
    /\ WriteDatagram lookupPort (w ++ frame1) addr2 payload2
       = (w ++ frame1 ++ frame2, None)
    /\ ReadDatagram (frame1 ++ frame2 ++ tail)
       = (Ok (addr1', payload1), frame2 ++ tail)
    /\ ReadDatagram (frame2 ++ tail) = (Ok (addr2', payload2), tail)
    /\ equivalentEndpoint lookupPort addr1 addr1'
    /\ equivalentEndpoint lookupPort addr2 addr2'.
Proof.
  intros He1 He2 Hp1 Hp2.
  assert (Hone : forall addr buf payload rest,
    encodeAddress lookupPort addr = Ok buf -> len payload <= 65535 ->
    exists addr',
      ReadDatagram ((binary.PutUint16 (len buf)
                       ++ binary.PutUint16 (uint16 (len payload))
                       ++ buf ++ payload) ++ rest)
      = (Ok (addr', payload), rest)
      /\ equivalentEndpoint lookupPort addr addr').
  { intros addr buf payload rest He Hp.
    pose proof (encodeAddress_length _ _ _ He) as Hl.
    destruct (decode_encode_equivalent _ _ _ He) as (addr' & Hd & He').
    specialize (Hd []). rewrite app_nil_r in Hd.
    exists addr'. split; [|exists buf; split; assumption].
    unfold uint16. rewrite (Z.mod_small (len payload)) by (unfold len in *; lia).
    rewrite <- !app_assoc.
    rewrite (ReadDatagram_frame buf addr' (len payload) (payload ++ rest));
      [|lia|unfold len in *; lia|rewrite Hd; reflexivity].
    rewrite (ReadFull_exact (Z.to_nat (len payload)) payload)
      by (unfold len; rewrite Nat2Z.id; reflexivity).
    reflexivity. }
  destruct (Hone addr1 buf1 payload1
              ((binary.PutUint16 (len buf2)
                  ++ binary.PutUint16 (uint16 (len payload2))
                  ++ buf2 ++ payload2) ++ tail) He1 Hp1) as (a1 & Hr1 & Hq1).
  destruct (Hone addr2 buf2 payload2 tail He2 Hp2) as (a2 & Hr2 & Hq2).
  eexists; eexists; exists a1, a2.
  split; [apply WriteDatagram_Buffer; [exact He1|unfold maxUoTPayload; lia]|].
  split.
  { rewrite (WriteDatagram_Buffer _ _ _ _ _ He2)
      by (unfold maxUoTPayload; lia).
    rewrite <- !app_assoc. reflexivity. }
  split; [|split; [|split; assumption]].
  - rewrite <- Hr1. rewrite <- !app_assoc. reflexivity.
  - exact Hr2.
Qed.

Lemma two_datagrams_in_order_witness :
  exists (frame1 frame2 : list byte) (addr1' addr2' : gostring),
    WriteDatagram builtinServices ([xee; x01] : Buffer) (str "example.com:domain")
      [xaa; xbb] = ([xee; x01] ++ frame1, None)
    /\ WriteDatagram builtinServices ([xee; x01] ++ frame1) (str "1.2.3.4:53")
         [xcc] = ([xee; x01] ++ frame1 ++ frame2, None)
    /\ ReadDatagram (frame1 ++ frame2 ++ [])
       = (Ok (addr1', [xaa; xbb]), frame2 ++ [])
    /\ ReadDatagram (frame2 ++ []) = (Ok (addr2', [xcc]), [])
    /\ equivalentEndpoint builtinServices (str "example.com:domain") addr1'
    /\ equivalentEndpoint builtinServices (str "1.2.3.4:53") addr2'.
Proof.
  apply (two_datagrams_in_order builtinServices [xee; x01]
           (str "example.com:domain") (str "1.2.3.4:53")
           ([x03; x0b] ++ str "example.com" ++ [x00; x35])
           [x01; x01; x02; x03; x04; x00; x35]).
  - reflexivity.
  - reflexivity.
  - vm_compute. discriminate.
  - vm_compute. discriminate.
Defined.

(** ** More on the receive loop *)

(** What [ReadDatagram] leaves is a suffix of the stream. *)
Lemma ReadDatagram_suffix (r r' : Reader) (x : result (gostring * list byte)) :
  ReadDatagram r = (x, r') -> exists consumed, r = consumed ++ r'.
Proof.
  destruct (Nat.lt_ge_cases (length r) 4) as [Hs|Hl].
  - destruct (ReadDatagram_short r Hs) as (e & -> & _).
    intros [= _ <-]. exists r. symmetry. apply app_nil_r.
  - destruct r as [|h0 [|h1 [|h2 [|h3 rest]]]]; simpl in Hl; try lia.
    rewrite ReadDatagram_header. cbv zeta. rewrite payloadLen_check_false.
    destruct ((binary.Uint16 [h0; h1] <=? 0) || _).
    { intros [= _ <-]. exists [h0; h1; h2; h3]. reflexivity. }
    destruct (io.ReadFull _ rest) as [[addrBuf|e] r1] eqn:E1.
    + apply ReadFull_Ok in E1. destruct E1 as [-> _].
      destruct (decodeAddress addrBuf) as [[a|e] r0].
      * destruct (io.ReadFull _ r1) as [[pl|e] r2] eqn:E2.
        -- apply ReadFull_Ok in E2. destruct E2 as [-> _].
           intros [= _ <-]. exists ([h0; h1; h2; h3] ++ addrBuf ++ pl).
           rewrite <- !app_assoc. reflexivity.
        -- apply ReadFull_Err in E2. destruct E2 as (_ & -> & _).
           intros [= _ <-]. eexists. symmetry. apply app_nil_r.
      * intros [= _ <-]. exists ([h0; h1; h2; h3] ++ addrBuf). reflexivity.
    + apply ReadFull_Err in E1. destruct E1 as (_ & -> & _).
      intros [= _ <-]. eexists. symmetry. apply app_nil_r.
Qed.

Section ReadFromSpec.

Variable ResolveUDPAddr : gostring -> result net.UDPAddr.
Variable p : list byte.

Let loop := ReadFrom_loop ResolveUDPAddr.

(** Fuel beyond the length of the stream changes nothing. *)
Lemma ReadFrom_loop_fuel (f1 : nat) :
  forall f2 r lg,
    (length r < f1)%nat -> (length r < f2)%nat ->
    loop f1 r p lg = loop f2 r p lg.
Proof.
  induction f1 as [|f1 IH]; intros f2 r lg H1 H2; [lia|].
  destruct f2 as [|f2]; [lia|]. unfold loop. cbn [ReadFrom_loop].
  destruct (ReadDatagram r) as [[[addrStr payload]|e] r'] eqn:Hr;
    [|reflexivity].
  destruct (len payload >? len p); [reflexivity|].
  destruct (ResolveUDPAddr addrStr); [reflexivity|].
  apply ReadDatagram_Ok_consumes in Hr. apply IH; lia.
Qed.

Lemma ReadFrom_loop_final fuel r lg res :
  ReadFrom_final ResolveUDPAddr p r lg res ->
  loop (S fuel) r p lg = Some res.
Proof.
  unfold ReadFrom_final, loop. cbn [ReadFrom_loop].
  destruct (ReadDatagram r) as [[[addrStr payload]|e] r'];
    [|intros ->; reflexivity].
  destruct (len payload >? len p); [intros ->; reflexivity|].
  intros (udpAddr & -> & ->). reflexivity.
Qed.

Lemma ReadFrom_loop_discards r lg r' lg' :
  Discards ResolveUDPAddr p r lg r' lg' ->
  loop (S (length r)) r p lg = loop (S (length r')) r' p lg'.
Proof.
  induction 1 as [|r r1 r' lg lg' addrStr payload e Hr Hl He _ IH];
    [reflexivity|].
  rewrite <- IH. unfold loop.
  rewrite (ReadFrom_loop_skip ResolveUDPAddr _ _ _ _ _ _ _ _ Hr Hl He).
  apply ReadDatagram_Ok_consumes in Hr.
  apply ReadFrom_loop_fuel; lia.
Qed.

Lemma ReadFrom_loop_spec fuel :
  forall r lg res,
    loop fuel r p lg = Some res ->
    exists r1 lg1,
      Discards ResolveUDPAddr p r lg r1 lg1
      /\ ReadFrom_final ResolveUDPAddr p r1 lg1 res.
Proof.
  induction fuel as [|fuel IH]; intros r lg res; [discriminate|].
  unfold loop. cbn [ReadFrom_loop].
  destruct (ReadDatagram r) as [[[addrStr payload]|e] r'] eqn:Hr.
  - destruct (Z.gtb_spec (len payload) (len p)) as [Hgt|Hle].
    + intros [= <-]. exists r, lg. split; [constructor|].
      unfold ReadFrom_final. rewrite Hr.
      destruct (Z.gtb_spec (len payload) (len p)); [reflexivity|lia].
    + destruct (ResolveUDPAddr addrStr) as [udpAddr|e] eqn:He.
      * intros [= <-]. exists r, lg. split; [constructor|].
        unfold ReadFrom_final. rewrite Hr.
        destruct (Z.gtb_spec (len payload) (len p)); [lia|].
        exists udpAddr. split; [exact He|reflexivity].
      * intros H. apply IH in H. destruct H as (r1 & lg1 & Hd & Hf).
        exists r1, lg1. split; [|exact Hf].
        eapply Discards_frame; eassumption.
  - intros [= <-]. exists r, lg. split; [constructor|].
    unfold ReadFrom_final. rewrite Hr. reflexivity.
Qed.

Lemma Discards_effect r lg r' lg' :
  Discards ResolveUDPAddr p r lg r' lg' ->
  (exists consumed, r = consumed ++ r')
  /\ exists discarded,
       lg' = lg ++ discarded
       /\ Forall (fun ae => ResolveUDPAddr (fst ae) = Err (snd ae)) discarded.
Proof.
  induction 1 as [|r r1 r' lg lg' addrStr payload e Hr Hl He _ IH].
  - split; [exists []; reflexivity|].
    exists []. split; [symmetry; apply app_nil_r|constructor].
  - destruct IH as ((c1 & Hc1) & (d1 & Hd1 & Hf1)).
    destruct (ReadDatagram_suffix _ _ _ Hr) as (c0 & Hc0). split.
    + exists (c0 ++ c1). rewrite <- app_assoc, <- Hc1. exact Hc0.
    + exists ((addrStr, e) :: d1). split.
      * rewrite Hd1, <- app_assoc. reflexivity.
      * constructor; [exact He|exact Hf1].
Qed.

End ReadFromSpec.

(** [ReadFrom], completely: a call returns [res] exactly when the loop
    discards zero or more frames that fit the buffer and do not resolve,
    logging each, and then ends on the next read with [res]: a stream or
    frame error, a payload larger than the buffer, or a frame that fits
    and resolves. *)
Theorem ReadFrom_spec
    (ResolveUDPAddr : gostring -> result net.UDPAddr) {W}
    (c : UoTPacketConn W) (p : list byte) (lg : Log) (res : ReadFromResult) :
  ReadFrom ResolveUDPAddr c p lg = Some res
  <-> exists r1 lg1,
        Discards ResolveUDPAddr p (incoming (conn c)) lg r1 lg1
        /\ ReadFrom_final ResolveUDPAddr p r1 lg1 res.
Proof.
  unfold ReadFrom. split.
  - apply ReadFrom_loop_spec.
  - intros (r1 & lg1 & Hd & Hf).
    rewrite (ReadFrom_loop_discards _ _ _ _ _ _ Hd).
    apply ReadFrom_loop_final. exact Hf.
Qed.

(** What every call of [ReadFrom] guarantees.  The buffer keeps its length;
    what is left of the stream is a suffix of it; the log grows by
    addresses that failed to resolve, each with the resolver's error.  On
    success the count is the payload length, at most [len(p)] and at most
    65535, the payload is at the front of the buffer and the rest of the
    buffer is untouched; on failure the count is 0, the address is nil and
    the buffer is unchanged. *)
Theorem ReadFrom_result_shape
    (ResolveUDPAddr : gostring -> result net.UDPAddr) {W}
    (c : UoTPacketConn W) (p : list byte) (lg : Log) (res : ReadFromResult) :
  ReadFrom ResolveUDPAddr c p lg = Some res ->
  length (rf_buf res) = length p
  /\ (exists consumed, incoming (conn c) = consumed ++ rf_stream res)
  /\ (exists discarded,
         rf_log res = lg ++ discarded
         /\ Forall (fun ae => ResolveUDPAddr (fst ae) = Err (snd ae)) discarded)
  /\ match rf_err res with
     | None =>
         exists udpAddr payload,
           rf_addr res = Some udpAddr
           /\ rf_n res = len payload
           /\ len payload <= len p /\ len payload <= 65535
           /\ rf_buf res = payload ++ skipn (length payload) p
     | Some _ => rf_n res = 0 /\ rf_addr res = None /\ rf_buf res = p
     end.
Proof.
  intros H. unfold ReadFrom in H. apply ReadFrom_loop_spec in H.
  destruct H as (r1 & lg1 & Hd & Hf).
  apply Discards_effect in Hd. destruct Hd as ((c1 & Hc1) & (d1 & Hd1 & Hf1)).
  unfold ReadFrom_final in Hf.
  destruct (ReadDatagram r1) as [[[addrStr payload]|e] r'] eqn:Hr.
  - destruct (ReadDatagram_suffix _ _ _ Hr) as (c0 & Hc0).
    assert (Hsuf : exists consumed, incoming (conn c) = consumed ++ r').
    { exists (c1 ++ c0). rewrite <- app_assoc, <- Hc0. exact Hc1. }
    destruct (Z.gtb_spec (len payload) (len p)) as [Hgt|Hle].
    + subst res. cbn. repeat split; try assumption.
      exists d1. split; assumption.
    + destruct Hf as (udpAddr & He & ->). cbn.
      assert (Hcopy : copy p payload = payload ++ skipn (length payload) p).
      { unfold copy. rewrite firstn_all2 by (unfold len in Hle; lia).
        reflexivity. }
      rewrite Hcopy. split; [|split; [exact Hsuf|split]].
      * rewrite length_app, length_skipn. unfold len in Hle. lia.
      * exists d1. split; assumption.
      * exists udpAddr, payload.
        apply ReadDatagram_Ok_fields in Hr.
        destruct Hr as (h0 & h1 & h2 & h3 & ab & _ & _ & _ & _ & Hp & _).
        repeat split; try assumption; reflexivity.
  - subst res. cbn. repeat split.
    + destruct (ReadDatagram_suffix _ _ _ Hr) as (c0 & Hc0).
      exists (c1 ++ c0). rewrite <- app_assoc, <- Hc0. exact Hc1.
    + exists d1. split; assumption.
Qed.

Lemma ReadFrom_result_shape_witness :
  let res :=
    {| rf_n := 1;
       rf_addr := Some {| net.IP := repeat x00 10 ++ [xff; xff; x01; x02; x03; x04];
                          net.Port := 53; net.Zone := [] |};
       rf_err := None; rf_stream := []; rf_buf := [xcc; x00; x00];
       rf_log := [(str "example.com:53", ErrResolve (str "example.com"))] |} in
  length (rf_buf res) = length [x00; x00; x00]
  /\ (exists consumed,
         incoming (conn (stream_conn (frame_example_com ++ frame_1_2_3_4)))
         = consumed ++ rf_stream res)
  /\ (exists discarded,
         rf_log res = [] ++ discarded
         /\ Forall (fun ae => literalResolver (fst ae) = Err (snd ae)) discarded)
  /\ match rf_err res with
     | None =>
         exists udpAddr payload,
           rf_addr res = Some udpAddr
           /\ rf_n res = len payload
           /\ len payload <= len [x00; x00; x00] /\ len payload <= 65535
           /\ rf_buf res = payload ++ skipn (length payload) [x00; x00; x00]
     | Some _ =>
         rf_n res = 0 /\ rf_addr res = None /\ rf_buf res = [x00; x00; x00]
     end.
Proof.
  intros res.
  apply (ReadFrom_result_shape literalResolver
           (stream_conn (frame_example_com ++ frame_1_2_3_4))
           [x00; x00; x00] [] res).
  reflexivity.
Defined.

Lemma ReadFrom_spec_witness :
  exists r1 lg1,
    Discards literalResolver [x00; x00; x00]
      (incoming (conn (stream_conn (frame_example_com ++ frame_1_2_3_4))))
      [] r1 lg1
    /\ ReadFrom_final literalResolver [x00; x00; x00] r1 lg1
         {| rf_n := 1;
            rf_addr := Some {| net.IP := repeat x00 10 ++ [xff; xff; x01; x02; x03; x04];
                               net.Port := 53; net.Zone := [] |};
            rf_err := None; rf_stream := []; rf_buf := [xcc; x00; x00];
            rf_log := [(str "example.com:53", ErrResolve (str "example.com"))] |}.
Proof.
  apply (proj1 (ReadFrom_spec literalResolver
                  (stream_conn (frame_example_com ++ frame_1_2_3_4))
                  [x00; x00; x00] [] _)).
  reflexivity.
Defined.

Lemma ReadDatagram_truncated_witness :
  ReadDatagram (firstn 11 frame_1_2_3_4) = (Err EOF, [])
  /\ ReadDatagram (firstn 10 frame_1_2_3_4) = (Err ErrUnexpectedEOF, []).
Proof.
  split.
  - exact (ReadDatagram_truncated [x01; x01; x02; x03; x04; x00; x35]
             (str "1.2.3.4:53") [xcc] 11
             ltac:(unfold len; simpl; lia) ltac:(unfold len; simpl; lia)
             eq_refl ltac:(simpl; lia)).
  - exact (ReadDatagram_truncated [x01; x01; x02; x03; x04; x00; x35]
             (str "1.2.3.4:53") [xcc] 10
             ltac:(unfold len; simpl; lia) ltac:(unfold len; simpl; lia)
             eq_refl ltac:(simpl; lia)).
Defined.

(** ** Sending and receiving through the adapter *)

(** What [WriteTo] sends, [ReadFrom] receives.  A datagram of at most 65535
    bytes sent to an address that encodes goes onto a healthy stream as
    one frame, after what the stream already holds; a [ReadFrom] whose
    stream starts with that frame, with a buffer that holds the payload
    and a resolver that resolves the decoded address, returns the payload
    length and the resolved address, copies the payload, logs nothing and
    leaves what follows the frame. *)
Theorem WriteTo_then_ReadFrom
    (lookupPort : gostring -> result Z)
    (c : UoTPacketConn Buffer) (payload : list byte) (dst : net.Addr)
    (addrBuf : list byte) :
  encodeAddress lookupPort (net.String dst) = Ok addrBuf ->
  len payload <= 65535 ->
  exists (frame : list byte) (addr' : gostring),
    WriteTo lookupPort c payload (Some dst)
    = ((len payload, None),
       {| conn := {| incoming := incoming (conn c);
                     outgoing := outgoing (conn c) ++ frame |} |})
    /\ equivalentEndpoint lookupPort (net.String dst) addr'
    /\ forall (ResolveUDPAddr : gostring -> result net.UDPAddr)
              (W' : Type) (c' : UoTPacketConn W') (tail : Reader)
              (p : list byte) (lg : Log) (udpAddr : net.UDPAddr),
         incoming (conn c') = frame ++ tail ->
         ResolveUDPAddr addr' = Ok udpAddr ->
         len payload <= len p ->
         ReadFrom ResolveUDPAddr c' p lg
         = Some {| rf_n := len payload; rf_addr := Some udpAddr;
                   rf_err := None; rf_stream := tail;
                   rf_buf := copy p payload; rf_log := lg |}.
Proof.
  intros He Hp.
  pose proof (encodeAddress_length _ _ _ He) as Hl.
  destruct (decode_encode_equivalent _ _ _ He) as (addr' & Hd & He').
  specialize (Hd []). rewrite app_nil_r in Hd.
  exists (binary.PutUint16 (len addrBuf)
            ++ binary.PutUint16 (uint16 (len payload)) ++ addrBuf ++ payload),
    addr'.
  split; [|split; [exists addrBuf; split; assumption|]].
  - unfold WriteTo.
    rewrite (WriteDatagram_Buffer _ _ _ _ _ He)
      by (unfold maxUoTPayload; lia).
    reflexivity.
  - intros Resolve W' c' tail p lg udpAddr Hin Hres Hfit.
    unfold ReadFrom. rewrite Hin.
    eapply ReadFrom_loop_deliver; [|exact Hfit|exact Hres].
    unfold uint16. rewrite (Z.mod_small (len payload)) by (unfold len in *; lia).
    rewrite <- !app_assoc.
    rewrite (ReadDatagram_frame addrBuf addr' (len payload) (payload ++ tail));
      [|lia|unfold len in *; lia|rewrite Hd; reflexivity].
    rewrite (ReadFull_exact (Z.to_nat (len payload)) payload)
      by (unfold len; rewrite Nat2Z.id; reflexivity).
    reflexivity.
Qed.

Lemma WriteTo_then_ReadFrom_witness :
  exists (frame : list byte) (addr' : gostring),
    WriteTo builtinServices (stream_conn []) [xcc]
      (Some {| net.Network := str "udp"; net.String := str "[::ffff:1.2.3.4]:53" |})
    = ((len [xcc], None),
       {| conn := {| incoming := []; outgoing := [] ++ frame |} |})
    /\ equivalentEndpoint builtinServices (str "[::ffff:1.2.3.4]:53") addr'
    /\ forall (ResolveUDPAddr : gostring -> result net.UDPAddr)
              (W' : Type) (c' : UoTPacketConn W') (tail : Reader)
              (p : list byte) (lg : Log) (udpAddr : net.UDPAddr),
         incoming (conn c') = frame ++ tail ->
         ResolveUDPAddr addr' = Ok udpAddr ->
         len [xcc] <= len p ->
         ReadFrom ResolveUDPAddr c' p lg
         = Some {| rf_n := len [xcc]; rf_addr := Some udpAddr;
                   rf_err := None; rf_stream := tail;
                   rf_buf := copy p [xcc]; rf_log := lg |}.
Proof.
  apply (WriteTo_then_ReadFrom builtinServices (stream_conn []) [xcc]
           {| net.Network := str "udp"; net.String := str "[::ffff:1.2.3.4]:53" |}
           [x01; x01; x02; x03; x04; x00; x35]).
  - reflexivity.
  - vm_compute. discriminate.
Defined.



(** A write that fails part-way.  On a stream that takes [room] more bytes
    and then fails, with [room] less than the length of the frame,
    [WriteDatagram] returns the stream's error and leaves the first [room]
    bytes of the frame on the stream: nothing is rolled back, and [WriteTo]
    reports 0 bytes. *)
Theorem WriteDatagram_partial_frame
    (lookupPort : gostring -> result Z) (w : Pipe)
    (dst : net.Addr) (addrBuf payload : list byte) (r : Reader) :
  encodeAddress lookupPort (net.String dst) = Ok addrBuf ->
  len payload <= 65535 ->
  (room w < 4 + length addrBuf + length payload)%nat ->
  let frame := binary.PutUint16 (len addrBuf)
                 ++ binary.PutUint16 (len payload) ++ addrBuf ++ payload in
  let w' := {| written := written w ++ firstn (room w) frame; room := 0 |} in
  WriteDatagram lookupPort w (net.String dst) payload
  = (w', Some (ErrTransport (str "write: broken pipe")))
  /\ WriteTo lookupPort {| conn := {| incoming := r; outgoing := w |} |}
       payload (Some dst)
     = ((0, Some (ErrTransport (str "write: broken pipe"))),
        {| conn := {| incoming := r; outgoing := w' |} |}).
Proof.
  intros He Hp Hroom frame w'.
  pose proof (encodeAddress_length _ _ _ He) as Hl.
  assert (Hw : WriteDatagram lookupPort w (net.String dst) payload
               = (w', Some (ErrTransport (str "write: broken pipe")))).
  { unfold WriteDatagram. rewrite He. cbv zeta.
    destruct (Z.eqb_spec (len addrBuf) 0); [lia|].
    destruct (Z.gtb_spec (len addrBuf) maxUoTPayload) as [Hgt|_];
      [unfold maxUoTPayload in Hgt; lia|].
    destruct (Z.gtb_spec (len payload) maxUoTPayload) as [Hgt|_];
      [unfold maxUoTPayload in Hgt; lia|].
    cbn [orb]. unfold uint16.
    rewrite (Z.mod_small (len addrBuf)), (Z.mod_small (len payload))
      by (unfold len in *; lia).
    set (header := binary.PutUint16 (len addrBuf)
                     ++ binary.PutUint16 (len payload)).
    assert (Hh : length header = 4%nat) by reflexivity.
    assert (Hf : frame = header ++ addrBuf ++ payload)
      by (unfold frame, header; rewrite <- app_assoc; reflexivity).
    unfold w'. rewrite Hf. clearbody header. clear frame w' Hf.
    unfold Write at 1, Pipe_Writer.
    destruct (Nat.leb_spec (length header) (room w)) as [H1|H1].
    - cbn [written room]. unfold Write at 1, Pipe_Writer. cbn [written room].
      destruct (Nat.leb_spec (length addrBuf) (room w - length header))
        as [H2|H2].
      + unfold Write, Pipe_Writer. cbn [written room].
        destruct (Nat.leb_spec (length payload)
                    (room w - length header - length addrBuf)); [lia|].
        rewrite !firstn_app, (firstn_all2 header), (firstn_all2 addrBuf) by lia.
        rewrite <- !app_assoc. repeat f_equal; lia.
      + rewrite !firstn_app, (firstn_all2 header) by lia.
        replace (room w - length header - length addrBuf)%nat with 0%nat by lia.
        rewrite firstn_O, app_nil_r, <- !app_assoc. reflexivity.
    - rewrite !firstn_app.
      replace (room w - length header)%nat with 0%nat by lia.
      rewrite !firstn_O, !app_nil_r. reflexivity. }
  split; [exact Hw|]. unfold WriteTo. cbn [conn outgoing incoming].
  rewrite Hw. reflexivity.
Qed.

Lemma WriteDatagram_partial_frame_witness :
  let dst := {| net.Network := str "udp"; net.String := str "93.184.216.34:443" |} in
  let w' := {| written := [x00; x07; x00; x03; x01]; room := 0 |} in
  WriteDatagram builtinServices {| written := []; room := 5 |}
    (net.String dst) [x01; x02; x03]
  = (w', Some (ErrTransport (str "write: broken pipe")))
  /\ WriteTo builtinServices
       {| conn := {| incoming := []; outgoing := {| written := []; room := 5 |} |} |}
       [x01; x02; x03] (Some dst)
     = ((0, Some (ErrTransport (str "write: broken pipe"))),
        {| conn := {| incoming := []; outgoing := w' |} |}).
Proof.
  intros dst w'.
  apply (WriteDatagram_partial_frame builtinServices
           {| written := []; room := 5 |} dst
           [x01; x5d; xb8; xd8; x22; x01; xbb] [x01; x02; x03] []).
  - reflexivity.
  - vm_compute. discriminate.
  - vm_compute. lia.
Defined.

(** ** The rule wrapper *)

Lemma uint64_range (z : Z) : 0 <= wrapper.uint64 z < 18446744073709551616.
Proof. apply Z.mod_pos_bound. lia. Qed.

Lemma uint64_add_1 (a k : Z) :
  wrapper.uint64 (wrapper.uint64 (a + 1) + k) = wrapper.uint64 (a + (1 + k)).
Proof.
  unfold wrapper.uint64. rewrite Zplus_mod_idemp_l. f_equal. lia.
Qed.

Lemma MatchAll_cons {R Metadata Helper : Type}
    `{wrapper.C_Rule R Metadata Helper}
    (now : time.Time) (metadata : Metadata) (helper : Helper)
    (calls : list (time.Time * Metadata * Helper)) (r : wrapper.RuleWrapper R) :
  wrapper.MatchAll ((now, metadata, helper) :: calls) r
  = (fst (wrapper.Match now r metadata helper)
       :: fst (wrapper.MatchAll calls (snd (wrapper.Match now r metadata helper))),
     snd (wrapper.MatchAll calls (snd (wrapper.Match now r metadata helper)))).
Proof.
  cbn [wrapper.MatchAll].
  destruct (wrapper.Match now r metadata helper) as [res r1]. cbn [fst snd].
  destruct (wrapper.MatchAll calls r1). reflexivity.
Qed.

Lemma Match_disabled {R Metadata Helper : Type}
    `{wrapper.C_Rule R Metadata Helper}
    (now : time.Time) (r : wrapper.RuleWrapper R)
    (metadata : Metadata) (helper : Helper) :
  wrapper.IsDisabled r = true ->
  wrapper.Match now r metadata helper = ((false, []), r).
Proof. intros Hd. unfold wrapper.Match. rewrite Hd. reflexivity. Qed.

Lemma Match_enabled {R Metadata Helper : Type}
    `{wrapper.C_Rule R Metadata Helper}
    (now : time.Time) (r : wrapper.RuleWrapper R)
    (metadata : Metadata) (helper : Helper) :
  wrapper.IsDisabled r = false ->
  wrapper.Match now r metadata helper
  = (wrapper.Rule_Match (wrapper.Unwrap r) metadata helper,
     if fst (wrapper.Rule_Match (wrapper.Unwrap r) metadata helper)
     then wrapper.Hit now r else wrapper.Miss now r).
Proof.
  intros Hd. unfold wrapper.Match, wrapper.Unwrap. rewrite Hd.
  destruct (wrapper.Rule_Match (wrapper.Rule r) metadata helper). reflexivity.
Qed.

(** The counters count the results.  Over any sequence of calls of
    [Match], the wrapper stays enabled or disabled as it was and keeps its
    rule.  Disabled, every call returns [(false, "")] and the wrapper does
    not change.  Enabled, every call returns what the rule returns, the
    hit counter advances by the number of calls that returned [true] and
    the miss counter by the number that returned [false], both modulo
    2^64. *)
Theorem MatchAll_counts {R Metadata Helper : Type}
    `{wrapper.C_Rule R Metadata Helper}
    (calls : list (time.Time * Metadata * Helper)) :
  forall r : wrapper.RuleWrapper R,
    0 <= wrapper.hitCount r < 18446744073709551616 ->
    0 <= wrapper.missCount r < 18446744073709551616 ->
    let ress := fst (wrapper.MatchAll calls r) in
    let r' := snd (wrapper.MatchAll calls r) in
    wrapper.IsDisabled r' = wrapper.IsDisabled r
    /\ wrapper.Unwrap r' = wrapper.Unwrap r
    /\ (if wrapper.IsDisabled r
        then ress = map (fun _ => (false, [])) calls /\ r' = r
        else
          ress = map (fun call =>
                        wrapper.Rule_Match (wrapper.Unwrap r)
                          (snd (fst call)) (snd call)) calls
          /\ wrapper.HitCount r'
             = wrapper.uint64 (wrapper.HitCount r
                               + len (filter (fun res => fst res) ress))
          /\ wrapper.MissCount r'
             = wrapper.uint64 (wrapper.MissCount r
                               + len (filter (fun res => negb (fst res)) ress))).
Proof.
  induction calls as [|[[now metadata] helper] calls IH]; intros r Hh Hm.
  - cbn. repeat split.
    destruct (wrapper.IsDisabled r); repeat split;
      unfold wrapper.HitCount, wrapper.MissCount, wrapper.uint64;
      rewrite Z.add_0_r, Z.mod_small by assumption; reflexivity.
  - rewrite MatchAll_cons. cbn [fst snd].
    destruct (wrapper.IsDisabled r) eqn:Hd.
    + rewrite (Match_disabled now r metadata helper Hd). cbn [fst snd].
      specialize (IH r Hh Hm). cbv zeta in IH. rewrite Hd in IH.
      destruct IH as (H1 & H2 & H3 & H4).
      repeat split; try assumption. cbn [map]. rewrite H3. reflexivity.
    + rewrite (Match_enabled now r metadata helper Hd). cbn [fst snd].
      unfold wrapper.Unwrap in *.
      destruct (wrapper.Rule_Match (wrapper.Rule r) metadata helper)
        as [ok adapter] eqn:Hr.
      cbn [fst snd].
      set (r1 := if ok then wrapper.Hit now r else wrapper.Miss now r).
      assert (Hd1 : wrapper.IsDisabled r1 = false)
        by (unfold r1; destruct ok; exact Hd).
      assert (Hu1 : wrapper.Rule r1 = wrapper.Rule r)
        by (unfold r1; destruct ok; reflexivity).
      assert (Hh1 : 0 <= wrapper.hitCount r1 < 18446744073709551616)
        by (unfold r1; destruct ok; [apply uint64_range|exact Hh]).
      assert (Hm1 : 0 <= wrapper.missCount r1 < 18446744073709551616)
        by (unfold r1; destruct ok; [exact Hm|apply uint64_range]).
      specialize (IH r1 Hh1 Hm1). cbv zeta in IH. rewrite Hd1, Hu1 in IH.
      destruct IH as (H1 & H2 & H3 & H4 & H5).
      split; [rewrite H1; reflexivity|]. split; [exact H2|].
      split; [cbn [map fst snd]; rewrite <- H3, Hr; reflexivity|].
      rewrite H4, H5. unfold r1, wrapper.HitCount, wrapper.MissCount, len.
      destruct ok; cbn [filter fst negb wrapper.Hit wrapper.Miss
                        wrapper.hitCount wrapper.missCount length];
        rewrite ?uint64_add_1, ?Nat2Z.inj_succ; split; f_equal; lia.
Qed.

Lemma MatchAll_counts_witness :
  let rule := {| exact_host := str "example.com"; exact_adapter := str "DIRECT" |} in
  let calls := [(1000, str "example.com", tt); (2500, str "other.org", tt);
                (3999, str "example.com", tt)] in
  let r := wrapper.NewRuleWrapper rule in
  let ress := fst (wrapper.MatchAll calls r) in
  let r' := snd (wrapper.MatchAll calls r) in
  wrapper.IsDisabled r' = wrapper.IsDisabled r
  /\ wrapper.Unwrap r' = wrapper.Unwrap r
  /\ ress = map (fun call =>
                   wrapper.Rule_Match (wrapper.Unwrap r)
                     (snd (fst call)) (snd call)) calls
  /\ wrapper.HitCount r'
     = wrapper.uint64 (wrapper.HitCount r + len (filter (fun res => fst res) ress))
  /\ wrapper.MissCount r'
     = wrapper.uint64 (wrapper.MissCount r
                       + len (filter (fun res => negb (fst res)) ress)).
Proof.
  intros rule calls r ress r'.
  exact (MatchAll_counts calls r ltac:(simpl; lia) ltac:(simpl; lia)).
Defined.

(** The time stamps.  A call of [Match] on an enabled wrapper returns what
    the rule returns; when that is a match, [HitAt] afterwards is the clock
    reading of the call cut to the microsecond and the miss side is
    untouched; otherwise [MissAt] is, and the hit side is untouched.  (The
    clock reading is one whose microseconds fit an [int64].) *)
Theorem Match_stamps {R Metadata Helper : Type}
    `{wrapper.C_Rule R Metadata Helper}
    (now : time.Time) (r : wrapper.RuleWrapper R)
    (metadata : Metadata) (helper : Helper) :
  wrapper.IsDisabled r = false ->
  - 9223372036854775808000 <= now < 9223372036854775808000 ->
  let res := fst (wrapper.Match now r metadata helper) in
  let r' := snd (wrapper.Match now r metadata helper) in
  res = wrapper.Rule_Match (wrapper.Unwrap r) metadata helper
  /\ if fst res
     then wrapper.HitAt r' = now - now mod 1000
          /\ wrapper.HitAt r' <= now < wrapper.HitAt r' + 1000
          /\ wrapper.MissAt r' = wrapper.MissAt r
          /\ wrapper.MissCount r' = wrapper.MissCount r
     else wrapper.MissAt r' = now - now mod 1000
          /\ wrapper.MissAt r' <= now < wrapper.MissAt r' + 1000
          /\ wrapper.HitAt r' = wrapper.HitAt r
          /\ wrapper.HitCount r' = wrapper.HitCount r.
Proof.
  intros Hd Hnow. unfold wrapper.Match. rewrite Hd.
  unfold wrapper.Unwrap.
  destruct (wrapper.Rule_Match (wrapper.Rule r) metadata helper)
    as [ok adapter].
  cbn [fst snd]. split; [reflexivity|].
  assert (Hus : time.UnixMicro (time.Time_UnixMicro now) = now - now mod 1000).
  { unfold time.UnixMicro, time.Time_UnixMicro, time.int64.
    rewrite Z.mod_small by (Z.to_euclidean_division_equations; lia).
    Z.to_euclidean_division_equations; lia. }
  pose proof (Z.mod_pos_bound now 1000 ltac:(lia)) as Hm.
  destruct ok; unfold wrapper.HitAt, wrapper.MissAt;
    cbn [wrapper.Hit wrapper.Miss wrapper.hitAt wrapper.missAt];
    rewrite Hus; repeat split; lia.
Qed.

Lemma Match_stamps_witness :
  let rule := {| exact_host := str "example.com"; exact_adapter := str "DIRECT" |} in
  let r := wrapper.NewRuleWrapper rule in
  let res := fst (wrapper.Match 1700000000123456789 r (str "example.com") tt) in
  let r' := snd (wrapper.Match 1700000000123456789 r (str "example.com") tt) in
  res = wrapper.Rule_Match (wrapper.Unwrap r) (str "example.com") tt
  /\ wrapper.HitAt r' = 1700000000123456789 - 1700000000123456789 mod 1000
  /\ wrapper.HitAt r' <= 1700000000123456789 < wrapper.HitAt r' + 1000
  /\ wrapper.MissAt r' = wrapper.MissAt r
  /\ wrapper.MissCount r' = wrapper.MissCount r.
Proof.
  intros rule r res r'.
  exact (Match_stamps 1700000000123456789 r (str "example.com") tt
           eq_refl ltac:(lia)).
Defined.
